(** * go-custom-logger: the log formatter of [formatter.go]

    A shallow embedding of the [customFormatter] of package [logger]
    (template engine [getMessage], text renderer [textFormat], JSON renderer
    [jsonFormat], dispatcher [Format], constructors and setters), together with
    models of the Go library functions it calls, and the properties of the
    formatter stated in the specification.

    Conventions.
    - A Go [string] and a Go [[]byte] are both byte sequences: [string].
    - [interface{}] values are the tagged union [value].
    - [logrus.Fields] is a finite map [gmap string value]. A Go [range] over
      a map visits the entries in an order the language leaves unspecified
      (and the runtime randomises): every function that ranges over
      [entry.Data] takes the order of the visit as an argument, and
      [range_order] says which orders are possible.
    - A function that can panic returns in the [exec] monad. *)

From Stdlib Require Import ZArith NArith Ascii String.
From stdpp Require Import gmap strings list fin_maps pretty.

Set Warnings "-register-all".
#[local] Open Scope string_scope.

(** ** Values, panics and errors *)

(** Dynamic values held in an [interface{}]. [VMap] is a non-nil
    [map[string]interface{}] and [VNilMap] the nil map of that type. [VOther]
    stands for a value of any dynamic type that is neither [string], [int],
    [bool], the nil interface nor [map[string]interface{}] (a float, a slice,
    a struct, a channel, ...): it is given by what the two library functions that the
    formatter applies to it produce, the [%v] rendering of package [fmt]
    and the encoding of [json.Marshal] ([None] when that fails, as it does for
    channels and functions). *)
Inductive value : Type :=
| VString (s : string)
| VInt (z : Z)
| VBool (b : bool)
| VNil
| VMap (m : gmap string value)
| VNilMap
| VOther (repr : string) (json : option string).

(** The value carried by a run-time panic: the failed type assertion
    [x.(string)], with the dynamic value that was found. *)
Inductive panic : Type :=
| TypeAssertionString (found : value).

Inductive exec (A : Type) : Type :=
| Ret (a : A)
| Panic (p : panic).
Arguments Ret {A} a.
Arguments Panic {A} p.

Definition exec_bind {A B : Type} (k : A -> exec B) (m : exec A) : exec B :=
  match m with
  | Ret a => k a
  | Panic p => Panic p
  end.

#[global] Instance exec_mret : MRet exec := fun A a => Ret a.
#[global] Instance exec_mbind : MBind exec := fun A B k m => exec_bind k m.
#[global] Instance exec_fmap : FMap exec := fun A B g m => exec_bind (fun a => Ret (g a)) m.

(** The non-nil [error] values the formatter can return: the failure of
    [json.Marshal] (an unsupported type or value). *)
Inductive error : Type :=
| MarshalError.

(** ** Package [strings] *)

(** [strings.HasPrefix(s, prefix)]. *)
Fixpoint HasPrefix (s prefix : string) : bool :=
  match prefix with
  | EmptyString => true
  | String a p =>
      match s with
      | EmptyString => false
      | String b t => if Ascii.eqb a b then HasPrefix t p else false
      end
  end.

(** [strings.Contains(s, substr)]: [substr] occurs at some offset of [s]. *)
Fixpoint Contains (s substr : string) : bool :=
  HasPrefix s substr
  || match s with
     | EmptyString => false
     | String _ t => Contains t substr
     end.

(** [s[n:]] (the whole of [s] is dropped when [n] exceeds its length, which
    the callers below never ask for). *)
Fixpoint string_drop (n : nat) (s : string) : string :=
  match n, s with
  | O, _ => s
  | S _, EmptyString => EmptyString
  | S k, String _ t => string_drop k t
  end.

(** [strings.Replace(s, old, new, 1)]: the first (leftmost) occurrence of
    [old] in [s] is replaced by [new]; [s] is returned unchanged when [old]
    does not occur. With an empty [old] the occurrence is at offset 0. *)
Fixpoint ReplaceFirst (s old new : string) : string :=
  if HasPrefix s old then new +:+ string_drop (String.length old) s
  else match s with
       | EmptyString => EmptyString
       | String c t => String c (ReplaceFirst t old new)
       end.

(** [strings.ToUpper] on the ASCII letters; the formatter applies it to the
    level names of logrus only, which are ASCII. *)
Definition upper_ascii (c : ascii) : ascii :=
  let n := N_of_ascii c in
  if ((97 <=? n) && (n <=? 122))%N then ascii_of_N (n - 32) else c.

Fixpoint ToUpper (s : string) : string :=
  match s with
  | EmptyString => EmptyString
  | String c t => String (upper_ascii c) (ToUpper t)
  end.

(** ** Package [time] *)

(** [time.Time] is opaque to the formatter, which only calls its [Format]
    method: a time is modelled by that method, from layouts to texts. *)
Record Time : Type := mkTime { Time_Format : string -> string }.

(** [time.RFC3339]. *)
Definition RFC3339 : string := "2006-01-02T15:04:05Z07:00".

(** ** Package [logrus] *)

(** [type Level uint32], with [PanicLevel] = 0 up to [TraceLevel] = 6. *)
Definition Level : Type := N.

Definition PanicLevel : Level := 0%N.
Definition FatalLevel : Level := 1%N.
Definition ErrorLevel : Level := 2%N.
Definition WarnLevel : Level := 3%N.
Definition InfoLevel : Level := 4%N.
Definition DebugLevel : Level := 5%N.
Definition TraceLevel : Level := 6%N.

(** [Level.String()]. *)
Definition Level_String (l : Level) : string :=
  match l with
  | 0%N => "panic"
  | 1%N => "fatal"
  | 2%N => "error"
  | 3%N => "warning"
  | 4%N => "info"
  | 5%N => "debug"
  | 6%N => "trace"
  | _ => "unknown"
  end.

(** The fields of [logrus.Entry] that the formatter reads. *)
Record Entry : Type := mkEntry {
  Data : gmap string value;
  Time_ : Time;
  Level_ : Level;
  Message : string
}.

(** The orders in which [for k, val := range m] can visit the map [m]. *)
Definition range_order (m : gmap string value) (o : list (string * value)) : Prop :=
  o ≡ₚ map_to_list m.

(** ** Package [fmt] *)

Fixpoint join (sep : string) (l : list string) : string :=
  match l with
  | [] => ""
  | [x] => x
  | x :: r => x +:+ sep +:+ join sep r
  end.

Fixpoint insert_by_key {A : Type} (kv : string * A) (l : list (string * A)) : list (string * A) :=
  match l with
  | [] => [kv]
  | kv' :: r =>
      if String.leb (fst kv) (fst kv') then kv :: l
      else kv' :: insert_by_key kv r
  end.

(** Map entries in the ascending (byte-wise) order of the keys, the order in
    which both [fmt] and [encoding/json] print a map. *)
Definition sort_by_key {A : Type} (l : list (string * A)) : list (string * A) :=
  foldr insert_by_key [] l.

(** The verb [%v] on an [interface{}] value. *)
Fixpoint fmt_v (v : value) : string :=
  match v with
  | VString s => s
  | VInt z => pretty z
  | VBool b => if b then "true" else "false"
  | VNil => "<nil>"
  | VMap m =>
      "map[" +:+
      join " " ((fun kv : string * string => fst kv +:+ ":" +:+ snd kv)
                  <$> sort_by_key (map_to_list (fmt_v <$> m)))
      +:+ "]"
  | VNilMap => "map[]"
  | VOther repr _ => repr
  end.

(** The verb [%v] on a [[]byte]: the bytes in decimal, separated by spaces,
    between square brackets. *)
Fixpoint bytes_of (s : string) : list N :=
  match s with
  | EmptyString => []
  | String c t => N_of_ascii c :: bytes_of t
  end.

Definition fmt_v_bytes (b : string) : string :=
  "[" +:+ join " " (pretty <$> bytes_of b) +:+ "]".

(** [fmt.Sprintf("%5s", s)]: [s] padded with spaces on the left to the width
    5 (the width counts characters; the argument is an ASCII level name). *)
Fixpoint spaces (n : nat) : string :=
  match n with
  | O => ""
  | S k => String " " (spaces k)
  end.

Definition Sprintf_5s (s : string) : string :=
  spaces (5 - String.length s) +:+ s.

(** [fmt.Sprintln(x)] on one operand already rendered with [%v]. *)
Definition Sprintln (rendered : string) : string :=
  rendered +:+ String (ascii_of_N 10) "".

(** ** Package [encoding/json] *)

Definition dquote : string := String (ascii_of_N 34) EmptyString.
Definition backslash : ascii := ascii_of_N 92.

Definition hex_digit (n : N) : ascii :=
  ascii_of_N (if (n <? 10)%N then 48 + n else 87 + n).

(** The escape of one byte below [utf8.RuneSelf] (with [escapeHTML], which
    [json.Marshal] sets): quote and backslash get a backslash, the control
    characters and [<], [>], [&] are written as [\u00xx], with the short
    forms for backspace, form feed, newline, carriage return and tab. *)
Definition json_escape_ascii (c : ascii) : string :=
  let b := N_of_ascii c in
  if (b =? 34)%N || (b =? 92)%N then String backslash (String c EmptyString)
  else if (b =? 8)%N then String backslash "b"
  else if (b =? 12)%N then String backslash "f"
  else if (b =? 10)%N then String backslash "n"
  else if (b =? 13)%N then String backslash "r"
  else if (b =? 9)%N then String backslash "t"
  else if (b <? 32)%N || (b =? 60)%N || (b =? 62)%N || (b =? 38)%N
  then String backslash ("u00" +:+ String (hex_digit (b / 16)) (String (hex_digit (b mod 16)) EmptyString))
  else String c EmptyString.

Fixpoint string_take (n : nat) (s : string) : string :=
  match n, s with
  | O, _ => EmptyString
  | S _, EmptyString => EmptyString
  | S k, String c t => String c (string_take k t)
  end.

Definition in_range (lo hi b : N) : bool := ((lo <=? b) && (b <=? hi))%N.

(** The width of the UTF-8 sequence at the head of [s], as
    [utf8.DecodeRuneInString] finds it; [None] for an invalid or truncated
    sequence (which decodes to [RuneError] with width 1). The head byte is at
    least [0x80]. *)
Definition utf8_width (s : string) : option nat :=
  match bytes_of (string_take 4 s) with
  | b0 :: rest =>
      if in_range 194 223 b0 then
        match rest with
        | b1 :: _ => if in_range 128 191 b1 then Some 2 else None
        | _ => None
        end
      else if in_range 224 239 b0 then
        match rest with
        | b1 :: b2 :: _ =>
            if in_range (if (b0 =? 224)%N then 160 else 128)
                        (if (b0 =? 237)%N then 159 else 191) b1
               && in_range 128 191 b2
            then Some 3 else None
        | _ => None
        end
      else if in_range 240 244 b0 then
        match rest with
        | b1 :: b2 :: b3 :: _ =>
            if in_range (if (b0 =? 240)%N then 144 else 128)
                        (if (b0 =? 244)%N then 143 else 191) b1
               && in_range 128 191 b2 && in_range 128 191 b3
            then Some 4 else None
        | _ => None
        end
      else None
  | [] => None
  end.

(** [U+2028] and [U+2029], which the encoder always escapes: the low four
    bits of the code point when the head of [s] is one of them. *)
Definition line_separator (s : string) : option N :=
  match bytes_of (string_take 3 s) with
  | [226; 128; 168]%N => Some 8%N
  | [226; 128; 169]%N => Some 9%N
  | _ => None
  end.

(** What to do with the bytes that follow the head of a multi-byte sequence
    already dealt with: copy them, or drop them (after an escape). *)
Inductive pending : Type :=
| Copy (n : nat)
| Drop (n : nat).

(** The replacement character [U+FFFD], in UTF-8. *)
Definition replacement_char : string :=
  String (ascii_of_N 239) (String (ascii_of_N 191) (String (ascii_of_N 189) EmptyString)).

(** The inside of a JSON string literal for the Go string [s]. A byte that
    does not begin a valid UTF-8 sequence is written as the replacement
    character itself (its three bytes), not as an escape. *)
Fixpoint json_escape (p : pending) (s : string) : string :=
  match s with
  | EmptyString => EmptyString
  | String c t =>
      match p with
      | Copy (S k) => String c (json_escape (Copy k) t)
      | Drop (S k) => json_escape (Drop k) t
      | _ =>
          if (N_of_ascii c <? 128)%N then json_escape_ascii c +:+ json_escape (Copy 0) t
          else match utf8_width s with
               | None => replacement_char +:+ json_escape (Copy 0) t
               | Some n =>
                   match line_separator s with
                   | Some d =>
                       String backslash ("u202" +:+ String (hex_digit d) EmptyString)
                       +:+ json_escape (Drop (n - 1)) t
                   | None => String c (json_escape (Copy (n - 1)) t)
                   end
               end
      end
  end.

Definition json_string (s : string) : string :=
  dquote +:+ json_escape (Copy 0) s +:+ dquote.

(** The members of an object, in the order given; [None] as soon as the
    encoding of one value has failed. *)
Fixpoint json_members (l : list (string * option string)) : option (list string) :=
  match l with
  | [] => Some []
  | (k, o) :: r =>
      match o, json_members r with
      | Some x, Some xs => Some ((json_string k +:+ ":" +:+ x) :: xs)
      | _, _ => None
      end
  end.

Definition json_object (l : list (string * option string)) : option string :=
  match json_members l with
  | Some xs => Some ("{" +:+ join "," xs +:+ "}")
  | None => None
  end.

(** The encoding of an [interface{}] value by [json.Marshal]; [None] when
    the encoder reports an error. The keys of a map are sorted. *)
Fixpoint json_encode (v : value) : option string :=
  match v with
  | VString s => Some (json_string s)
  | VInt z => Some (pretty z)
  | VBool b => Some (if b then "true" else "false")
  | VNil => Some "null"
  | VMap m => json_object (sort_by_key (map_to_list (json_encode <$> m)))
  | VNilMap => Some "null"
  | VOther _ j => j
  end.

(** [json.Marshal(v)]: the bytes and a nil error, or no bytes and an error. *)
Definition json_Marshal (v : value) : string * option error :=
  match json_encode v with
  | Some b => (b, None)
  | None => (EmptyString, Some MarshalError)
  end.

(** ** Package [logger]: [formatter.go] *)

Definition RequestIdKey : string := "X-Request-ID".

Definition defaultTimeFormat : string := RFC3339.
Definition defaultDataSeparator : string := " |".

Definition logTimeKey : string := "<time>".
Definition logLevelKey : string := "<level>".
Definition logIdKey : string := "<id>".
Definition logMsgKey : string := "<msg>".

(** [fmt.Sprintf("[%v] [%v] [%v] %v", logTimeKey, logLevelKey, logIdKey, logMsgKey)]. *)
Definition defaultMsgFormat : string :=
  "[" +:+ logTimeKey +:+ "] [" +:+ logLevelKey +:+ "] [" +:+ logIdKey +:+ "] " +:+ logMsgKey.

(** The package variable [FormatIdentifier], at its initial value
    [fmt.Sprintf("<%s>", identifier)]. *)
Definition FormatIdentifier (identifier : string) : string :=
  "<" +:+ identifier +:+ ">".

Record customFormatter : Type := mkFormatter {
  isDefault : bool;
  jsonOutput : bool;
  textDataSeparator : string;
  MsgPrefix : string;
  MsgFormat : string;
  TimeFormat : string
}.

Definition DefaultFormatter (prefix : string) : customFormatter :=
  {| isDefault := true;
     jsonOutput := false;
     textDataSeparator := defaultDataSeparator;
     MsgPrefix := prefix;
     MsgFormat := defaultMsgFormat;
     TimeFormat := defaultTimeFormat |}.

(** The fields that the composite literal of [NewFormatter] leaves out have
    the zero value of their type. *)
Definition NewFormatter : customFormatter :=
  {| isDefault := false;
     jsonOutput := false;
     textDataSeparator := EmptyString;
     MsgPrefix := EmptyString;
     MsgFormat := EmptyString;
     TimeFormat := defaultTimeFormat |}.

Definition SetLogFormat (f : customFormatter) (format : string) : customFormatter :=
  {| isDefault := isDefault f;
     jsonOutput := jsonOutput f;
     textDataSeparator := textDataSeparator f;
     MsgPrefix := MsgPrefix f;
     MsgFormat := format;
     TimeFormat := TimeFormat f |}.

Definition SetLogPrefix (f : customFormatter) (prefix : string) : customFormatter :=
  {| isDefault := isDefault f;
     jsonOutput := jsonOutput f;
     textDataSeparator := textDataSeparator f;
     MsgPrefix := prefix;
     MsgFormat := MsgFormat f;
     TimeFormat := TimeFormat f |}.

Definition SetDataSeparator (f : customFormatter) (sep : string) : customFormatter :=
  {| isDefault := isDefault f;
     jsonOutput := jsonOutput f;
     textDataSeparator := sep;
     MsgPrefix := MsgPrefix f;
     MsgFormat := MsgFormat f;
     TimeFormat := TimeFormat f |}.

Definition SetJsonOutput (f : customFormatter) : customFormatter :=
  {| isDefault := isDefault f;
     jsonOutput := true;
     textDataSeparator := textDataSeparator f;
     MsgPrefix := MsgPrefix f;
     MsgFormat := MsgFormat f;
     TimeFormat := TimeFormat f |}.

Definition SetTimeFormat (f : customFormatter) (format : string) : customFormatter :=
  {| isDefault := isDefault f;
     jsonOutput := jsonOutput f;
     textDataSeparator := textDataSeparator f;
     MsgPrefix := MsgPrefix f;
     MsgFormat := MsgFormat f;
     TimeFormat := format |}.

(** The type assertion [x.(string)]. *)
Definition assert_string (x : value) : exec string :=
  match x with
  | VString s => Ret s
  | _ => Panic (TypeAssertionString x)
  end.

(** The body of the loop of [getMessage] over [entry.Data]. *)
Definition getMessage_step (output : string) (kv : string * value) : string :=
  let '(k, val) := kv in
  if String.eqb k RequestIdKey then output
  else if Contains output (FormatIdentifier k)
       then ReplaceFirst output (FormatIdentifier k) (fmt_v val)
       else output.

(** [getMessage]; [o] is the order in which the [range] visits [entry.Data]. *)
Definition getMessage (f : customFormatter) (entry : Entry)
    (o : list (string * value)) : exec string :=
  let output := MsgFormat f in
  let output := ReplaceFirst output logTimeKey (Time_Format (Time_ entry) (TimeFormat f)) in
  let output := ReplaceFirst output logLevelKey
                  (Sprintf_5s (ToUpper (Level_String (Level_ entry)))) in
  output ← match Data entry !! RequestIdKey with
           | Some id => s ← assert_string id; mret (ReplaceFirst output logIdKey s)
           | None =>
               mret (if isDefault f
                     then ReplaceFirst output (" [" +:+ logIdKey +:+ "]") EmptyString
                     else output)
           end;
  let output := foldl getMessage_step output o in
  mret (if String.eqb (Message entry) EmptyString
        then ReplaceFirst output (" [" +:+ logMsgKey +:+ "]") EmptyString
        else ReplaceFirst output logMsgKey (Message entry)).

Record jsonOutputFormat : Type := mkJsonOutputFormat {
  Timestamp : string;
  Level_json : string;
  ID : option string;
  Message_json : string;
  Data_json : gmap string value
}.

(** [json.Marshal] of a [*jsonOutputFormat]: the fields in the order of the
    declaration, [id] left out when the pointer is nil and [data] when the
    map is empty (the [omitempty] of their tags). *)
Definition json_Marshal_format (x : jsonOutputFormat) : string * option error :=
  let data :=
    if decide (size (Data_json x) = 0) then Some []
    else match json_encode (VMap (Data_json x)) with
         | Some d => Some [json_string "data" +:+ ":" +:+ d]
         | None => None
         end in
  match data with
  | Some data =>
      ("{" +:+ join ","
         ([json_string "timestamp" +:+ ":" +:+ json_string (Timestamp x);
           json_string "level" +:+ ":" +:+ json_string (Level_json x)]
          ++ match ID x with
             | Some id => [json_string "id" +:+ ":" +:+ json_string id]
             | None => []
             end
          ++ [json_string "message" +:+ ":" +:+ json_string (Message_json x)]
          ++ data)
       +:+ "}", None)
  | None => (EmptyString, Some MarshalError)
  end.

(** The value of [format] in [jsonFormat] when [json.Marshal] is called. *)
Definition jsonFormat_format (f : customFormatter) (entry : Entry)
    (o : list (string * value)) : exec jsonOutputFormat :=
  msg ← getMessage f entry o;
  let format :=
    {| Timestamp := Time_Format (Time_ entry) defaultTimeFormat;
       Level_json := ToUpper (Level_String (Level_ entry));
       ID := None;
       Message_json := msg;
       Data_json := Data entry |} in
  match Data entry !! RequestIdKey with
  | Some val =>
      id ← assert_string val;
      mret {| Timestamp := Timestamp format;
              Level_json := Level_json format;
              ID := Some id;
              Message_json := Message_json format;
              Data_json := Data_json format |}
  | None => mret format
  end.

(** [jsonFormat]: the bytes returned are [fmt.Sprintln] of the [[]byte] that
    [json.Marshal] returned. *)
Definition jsonFormat (f : customFormatter) (entry : Entry)
    (o : list (string * value)) : exec (string * option error) :=
  format ← jsonFormat_format f entry o;
  let '(output, err) := json_Marshal_format format in
  mret (Sprintln (fmt_v_bytes output), err).

(** [fmt.Sprintf("%v%s %s = %v", output, sep, k, rendered)], the last operand
    already rendered with [%v]. *)
Definition Sprintf_pair (output sep k rendered : string) : string :=
  output +:+ sep +:+ " " +:+ k +:+ " = " +:+ rendered.

(** The body of the loop of [textFormat] over [entry.Data]. *)
Definition textFormat_step (f : customFormatter) (output : string)
    (kv : string * value) : string :=
  let '(k, val) := kv in
  if String.eqb k RequestIdKey then output
  else if Contains output (FormatIdentifier k) then output
  else
    let plain := Sprintf_pair output (textDataSeparator f) k (fmt_v val) in
    match val with
    | VMap _ | VNilMap =>
        match json_Marshal val with
        | (jsonVal, None) =>
            Sprintf_pair output (textDataSeparator f) k (fmt_v_bytes jsonVal)
        | (_, Some _) => plain
        end
    | _ => plain
    end.

(** [textFormat]; [o1] is the order of the [range] in [getMessage] and [o2]
    the order of the [range] of [textFormat] itself. *)
Definition textFormat (f : customFormatter) (entry : Entry)
    (o1 o2 : list (string * value)) : exec (string * option error) :=
  output ← getMessage f entry o1;
  let output := foldl (textFormat_step f) output o2 in
  mret (Sprintln output, None).

(** What [Format] returns: the bytes and the error of one of the two
    renderers, or, for an empty [MsgFormat], whatever the [TextFormatter] of
    logrus returns for the entry (that formatter is not part of this
    package). *)
Inductive formatted : Type :=
| Rendered (bytes : string) (err : option error)
| Baseline (entry : Entry).

Definition rendered (r : string * option error) : formatted :=
  Rendered (fst r) (snd r).

Definition Format (f : customFormatter) (entry : Entry)
    (o1 o2 : list (string * value)) : exec formatted :=
  if String.eqb (MsgFormat f) EmptyString then mret (Baseline entry)
  else if jsonOutput f then rendered <$> jsonFormat f entry o1
  else rendered <$> textFormat f entry o1 o2.

(** ** Tokens that cannot overlap *)

(** The non-empty suffixes of a string, longest first. *)
Fixpoint tails (s : string) : list string :=
  match s with
  | EmptyString => []
  | String _ t => s :: tails t
  end.

Definition string_tail (s : string) : string :=
  match s with
  | EmptyString => EmptyString
  | String _ t => t
  end.

(** One of the two strings is a prefix of the other: they can be laid at
    the same offset of one text. *)
Definition compatible (a b : string) : bool := HasPrefix a b || HasPrefix b a.

(** No occurrence of [old] in a text can share a byte with an occurrence of
    [tok]: no suffix of [old] can be laid where [tok] starts, and [old]
    cannot start at a later byte of [tok]. *)
Definition apart (old tok : string) : bool :=
  forallb (fun t => negb (compatible t tok)) (tails old)
  && forallb (fun u => negb (compatible u old)) (tails (string_tail tok)).

(** The entries that the two loops do not skip at once: those whose key is
    not the request id. *)
Definition other_fields (o : list (string * value)) : list (string * value) :=
  filter (fun kv => fst kv <> RequestIdKey) o.

(** ** Inputs used in the examples *)

(** 2024-01-02 03:04:05 UTC; only its rendering with the layout RFC3339 is
    used. *)
Definition sample_time : Time :=
  mkTime (fun layout =>
            if String.eqb layout RFC3339 then "2024-01-02T03:04:05Z" else layout).

Definition entry_with_id : Entry :=
  {| Data := {[ RequestIdKey := VString "abc123" ]};
     Time_ := sample_time; Level_ := InfoLevel; Message := "hello" |}.

Definition entry_region : Entry :=
  {| Data := {[ "region" := VString "us-east" ]};
     Time_ := sample_time; Level_ := InfoLevel; Message := "hello" |}.

Definition entry_two_fields : Entry :=
  {| Data := {[ "a" := VInt 1; "b" := VInt 2 ]};
     Time_ := sample_time; Level_ := InfoLevel; Message := "hello" |}.

Definition entry_no_message : Entry :=
  {| Data := ∅; Time_ := sample_time; Level_ := InfoLevel; Message := EmptyString |}.

Definition entry_field_named_id : Entry :=
  {| Data := {[ "id" := VInt 42 ]};
     Time_ := sample_time; Level_ := InfoLevel; Message := "hello" |}.

Definition entry_numeric_request_id : Entry :=
  {| Data := {[ RequestIdKey := VInt 7 ]};
     Time_ := sample_time; Level_ := InfoLevel; Message := "hello" |}.

(** A map holding a channel, which [json.Marshal] refuses. *)
Definition map_with_channel : gmap string value :=
  {[ "done" := VOther "0xc000012345" None ]}.

Definition entry_with_channel : Entry :=
  {| Data := {[ "conn" := VMap map_with_channel ]};
     Time_ := sample_time; Level_ := InfoLevel; Message := "hello" |}.

Definition cfg_msg_only : customFormatter := SetLogFormat NewFormatter "<msg>".

Definition cfg_json : customFormatter := SetJsonOutput cfg_msg_only.

Definition cfg_text : customFormatter := SetLogFormat (DefaultFormatter EmptyString) "<msg>".

Definition cfg_region : customFormatter :=
  SetLogFormat (DefaultFormatter EmptyString) "<region> <msg>".

Definition cfg_bracketed_msg : customFormatter :=
  SetLogFormat NewFormatter "[<level>] [<msg>]".

Definition cfg_id_token : customFormatter := SetLogFormat NewFormatter "<id> <msg>".

Definition order_a_b : list (string * value) := [("a", VInt 1); ("b", VInt 2)].
Definition order_b_a : list (string * value) := [("b", VInt 2); ("a", VInt 1)].

(** ** Characters that keep a token from matching *)

Fixpoint mem_char (x : ascii) (s : string) : bool :=
  match s with
  | EmptyString => false
  | String c t => Ascii.eqb x c || mem_char x t
  end.

(** [old] reaches an [x] before it ends, and up to that [x] included none of
    its bytes is [c]: laid over a text without [x] that is followed by [c],
    [old] cannot match. *)
Fixpoint guarded (x c : ascii) (old : string) : bool :=
  match old with
  | EmptyString => false
  | String d r => negb (Ascii.eqb d c) && (Ascii.eqb d x || guarded x c r)
  end.

(** The names of the levels, as [Level.String] gives them. *)
Definition level_names : list string :=
  ["panic"; "fatal"; "error"; "warning"; "info"; "debug"; "trace"; "unknown"].

(** The level as both renderers print it. *)
Definition level_column (l : Level) : string :=
  Sprintf_5s (ToUpper (Level_String l)).

Definition entry_no_fields : Entry :=
  {| Data := ∅; Time_ := sample_time; Level_ := InfoLevel; Message := "hello" |}.

Definition entry_id_and_region : Entry :=
  {| Data := {[ RequestIdKey := VString "abc123"; "region" := VString "us-east" ]};
     Time_ := sample_time; Level_ := InfoLevel; Message := "hello" |}.

Definition order_id_region : list (string * value) :=
  [(RequestIdKey, VString "abc123"); ("region", VString "us-east")].
Definition order_region_id : list (string * value) :=
  [("region", VString "us-east"); (RequestIdKey, VString "abc123")].

(** * Properties *)

(** ** Facts on [HasPrefix], [Contains] and [ReplaceFirst] *)

Section StringFacts.

Implicit Types s t a old new : string.

Lemma append_cons c s q : String c s +:+ q = String c (s +:+ q).
Proof. reflexivity. Qed.

Lemma append_assoc s t a : (s +:+ t) +:+ a = s +:+ t +:+ a.
Proof. induction s as [|c s IH]; [done|]. rewrite !append_cons. by f_equal. Qed.

Lemma HasPrefix_empty s : HasPrefix s EmptyString = true.
Proof. by destruct s. Qed.

Lemma HasPrefix_cons c d s a :
  HasPrefix (String c s) (String d a) = true <-> c = d /\ HasPrefix s a = true.
Proof.
  simpl. destruct (Ascii.eqb_spec d c) as [Heq|Hne].
  - subst. split; [by intros ?|by intros [_ ?]].
  - split; [done|]. intros [Heq _]. by subst.
Qed.

Lemma Contains_empty s : Contains s EmptyString = true.
Proof. destruct s; reflexivity. Qed.

Lemma Contains_cons c s a :
  Contains (String c s) a = HasPrefix (String c s) a || Contains s a.
Proof. reflexivity. Qed.

Lemma HasPrefix_Contains s a : HasPrefix s a = true -> Contains s a = true.
Proof. intros H. destruct s; cbn [Contains]; by rewrite H. Qed.

Lemma HasPrefix_app_l s a q : HasPrefix s a = true -> HasPrefix (s +:+ q) a = true.
Proof.
  revert s. induction a as [|d a IH]; intros s; [by rewrite !HasPrefix_empty|].
  destruct s as [|c s]; [done|].
  rewrite append_cons.
  rewrite !HasPrefix_cons. intros [-> H]. auto.
Qed.

Lemma Contains_app_l s a q : Contains s a = true -> Contains (s +:+ q) a = true.
Proof.
  induction s as [|c s IH].
  - simpl. rewrite orb_false_r. intros H. destruct a; [apply Contains_empty|done].
  - rewrite append_cons.
    rewrite !Contains_cons, !orb_true_iff. intros [H|H].
    + left. by apply (HasPrefix_app_l (String c s)).
    + right. auto.
Qed.

Lemma Contains_app_r p s a : Contains s a = true -> Contains (p +:+ s) a = true.
Proof.
  intros H. induction p as [|c p IH]; [done|].
  rewrite append_cons.
  rewrite Contains_cons, IH. apply orb_true_r.
Qed.

Lemma HasPrefix_split s old :
  HasPrefix s old = true -> s = old +:+ string_drop (String.length old) s.
Proof.
  revert s. induction old as [|d old IH]; intros s; [done|].
  destruct s as [|c s]; [done|].
  rewrite HasPrefix_cons. intros [-> H].
  cbn [String.length string_drop]. rewrite append_cons. f_equal. by apply IH.
Qed.

Lemma compatible_cons c d a b :
  compatible (String c a) (String d b) = true <-> c = d /\ compatible a b = true.
Proof.
  unfold compatible. rewrite !orb_true_iff, !HasPrefix_cons. intuition congruence.
Qed.

Lemma compatible_empty_r a : compatible a EmptyString = true.
Proof. unfold compatible. by rewrite HasPrefix_empty. Qed.

Lemma compatible_empty_l a : compatible EmptyString a = true.
Proof. unfold compatible. rewrite (HasPrefix_empty a). apply orb_true_r. Qed.

(** Two prefixes of one text are compatible. *)
Lemma HasPrefix_compatible s a b :
  HasPrefix s a = true -> HasPrefix s b = true -> compatible a b = true.
Proof.
  revert s b. induction a as [|c a IH]; intros s b Ha Hb.
  - apply compatible_empty_l.
  - destruct b as [|d b]; [apply compatible_empty_r|].
    destruct s as [|e s]; [done|].
    apply HasPrefix_cons in Ha as [-> Ha]. apply HasPrefix_cons in Hb as [-> Hb].
    apply compatible_cons. eauto.
Qed.

(** A token found at the head of [t +:+ q] is compatible with [t]. *)
Lemma HasPrefix_app_compatible t q a :
  HasPrefix (t +:+ q) a = true -> compatible t a = true.
Proof.
  revert a. induction t as [|c t IH]; intros a H.
  - apply compatible_empty_l.
  - destruct a as [|d a]; [apply compatible_empty_r|].
    rewrite append_cons in H.
    apply HasPrefix_cons in H as [-> H]. apply compatible_cons. eauto.
Qed.

(** A token that occurs in [old +:+ q] and cannot start inside [old] occurs
    in [q]. *)
Lemma Contains_app_skip old q a :
  forallb (fun t => negb (compatible t a)) (tails old) = true ->
  Contains (old +:+ q) a = true -> Contains q a = true.
Proof.
  induction old as [|c old IH]; [done|].
  cbn [tails forallb]. rewrite andb_true_iff, negb_true_iff. intros [Hc Hrest].
  rewrite append_cons.
  rewrite Contains_cons, orb_true_iff. intros [H|H]; [|by auto].
  apply (HasPrefix_app_compatible (String c old)) in H. congruence.
Qed.

(** A token at the head of the text stays there when [old], which cannot
    start at any of its bytes, is replaced. *)
Lemma HasPrefix_ReplaceFirst a s old new :
  forallb (fun u => negb (compatible u old)) (tails a) = true ->
  HasPrefix s a = true -> HasPrefix (ReplaceFirst s old new) a = true.
Proof.
  revert s. induction a as [|c a IH]; intros s Hfree Hs.
  - apply HasPrefix_empty.
  - cbn [tails forallb] in Hfree.
    apply andb_true_iff in Hfree as [Hc Hrest]. apply negb_true_iff in Hc.
    destruct s as [|d s]; [done|].
    pose proof Hs as Hs'. apply HasPrefix_cons in Hs' as [-> Hs'].
    cbn [ReplaceFirst].
    destruct (HasPrefix (String c s) old) eqn:Hold.
    + pose proof (HasPrefix_compatible _ _ _ Hs Hold). congruence.
    + apply HasPrefix_cons. auto.
Qed.

(** Replacing the first occurrence of [old] keeps every occurrence of a
    token that [old] cannot overlap. *)
Lemma Contains_ReplaceFirst s old new a :
  apart old a = true ->
  Contains s a = true -> Contains (ReplaceFirst s old new) a = true.
Proof.
  unfold apart. rewrite andb_true_iff. intros [Hold Ha].
  destruct a as [|c a]; [intros _; apply Contains_empty|].
  cbn [string_tail] in Ha.
  induction s as [|d s IH]; [done|].
  intros Hs. cbn [ReplaceFirst].
  destruct (HasPrefix (String d s) old) eqn:Hp.
  - apply Contains_app_r. apply (Contains_app_skip old); [done|].
    by rewrite <- HasPrefix_split.
  - rewrite Contains_cons in Hs. rewrite Contains_cons.
    apply orb_true_iff in Hs as [Hs|Hs]; apply orb_true_iff.
    + left. apply HasPrefix_cons in Hs as [-> Hs]. apply HasPrefix_cons.
      split; [done|]. by apply HasPrefix_ReplaceFirst.
    + right. auto.
Qed.

End StringFacts.

(** ** The tokens of the formatter *)

Section Tokens.

Implicit Types s t u k tok : string.

Lemma FormatIdentifier_snoc k : FormatIdentifier k = String "<" k +:+ ">".
Proof. reflexivity. Qed.

(** Every non-empty suffix of a text that ends with [>] ends with [>]. *)
Lemma tails_closing x t : In t (tails (x +:+ ">")) -> exists u, t = u +:+ ">".
Proof.
  induction x as [|c x IH].
  - cbn. intros [<-|[]]. by exists EmptyString.
  - rewrite append_cons. cbn [tails In]. intros [<-|H]; [|by auto].
    exists (String c x). by rewrite append_cons.
Qed.

Lemma tails_Contains s t tok :
  In t (tails s) -> HasPrefix t tok = true -> Contains s tok = true.
Proof.
  induction s as [|c s IH]; [done|].
  cbn [tails In]. intros [<-|H] Ht.
  - by apply HasPrefix_Contains.
  - rewrite Contains_cons, IH by done. apply orb_true_r.
Qed.

(** A text that ends with [>] and is a prefix of [<id>] is [<id>]. *)
Lemma prefix_of_id_closing u :
  HasPrefix logIdKey (u +:+ ">") = true -> u +:+ ">" = logIdKey.
Proof.
  unfold logIdKey.
  destruct u as [|c1 [|c2 [|c3 [|c4 u]]]]; rewrite ?append_cons; intros H;
    repeat match type of H with
           | HasPrefix (String _ _) (String _ _) = true =>
               let E := fresh "E" in
               apply HasPrefix_cons in H as [E H]; try discriminate E; try subst
           end; try done.
  by destruct u.
Qed.

(** The token of a field can share a byte with an occurrence of [<id>] only
    when [<id>] occurs inside that token. *)
Lemma apart_FormatIdentifier k :
  Contains (FormatIdentifier k) logIdKey = false ->
  apart (FormatIdentifier k) logIdKey = true.
Proof.
  intros Hk. unfold apart. apply andb_true_iff. split.
  - apply forallb_forall. intros t Ht. apply negb_true_iff.
    destruct (compatible t logIdKey) eqn:Hc; [|done].
    assert (HasPrefix t logIdKey = true) as Hp.
    { unfold compatible in Hc. apply orb_true_iff in Hc as [Hc|Hc]; [done|].
      rewrite FormatIdentifier_snoc in Ht.
      destruct (tails_closing _ _ Ht) as [u ->].
      by rewrite (prefix_of_id_closing u Hc). }
    rewrite (tails_Contains _ _ _ Ht Hp) in Hk. done.
  - rewrite FormatIdentifier_snoc, append_cons. reflexivity.
Qed.

Lemma apart_logTimeKey : apart logTimeKey logIdKey = true.
Proof. reflexivity. Qed.

Lemma apart_logLevelKey : apart logLevelKey logIdKey = true.
Proof. reflexivity. Qed.

Lemma apart_logMsgKey : apart logMsgKey logIdKey = true.
Proof. reflexivity. Qed.

Lemma apart_bracketed_logMsgKey : apart (" [" +:+ logMsgKey +:+ "]") logIdKey = true.
Proof. reflexivity. Qed.

End Tokens.

(** ** The two loops over [entry.Data] *)

Ltac exec_unfold :=
  unfold mbind, exec_mbind, mret, exec_mret, fmap, exec_fmap, exec_bind in *.

Section Loops.

Implicit Types (f : customFormatter) (e : Entry) (o : list (string * value)).
Implicit Types (output tok k : string) (kv : string * value).

Lemma getMessage_step_request_id output kv :
  fst kv = RequestIdKey -> getMessage_step output kv = output.
Proof. destruct kv as [k v]. simpl. intros ->. reflexivity. Qed.

Lemma textFormat_step_request_id f output kv :
  fst kv = RequestIdKey -> textFormat_step f output kv = output.
Proof. destruct kv as [k v]. simpl. intros ->. reflexivity. Qed.

(** A loop that leaves its accumulator alone on some entries can run on the
    other entries only. *)
Lemma foldl_filter {A B : Type} (g : A -> B -> A) (P : B -> Prop)
    `{!forall x, Decision (P x)} (l : list B) (a : A) :
  (forall a x, ~ P x -> g a x = a) -> foldl g a l = foldl g a (filter P l).
Proof.
  intros Hskip. revert a. induction l as [|x l IH]; intros a; [done|].
  rewrite filter_cons. destruct (decide (P x)) as [Hx|Hx]; simpl.
  - apply IH.
  - rewrite Hskip by done. apply IH.
Qed.

Lemma foldl_getMessage_step_other output o :
  foldl getMessage_step output o = foldl getMessage_step output (other_fields o).
Proof.
  apply foldl_filter. intros a x Hx. apply getMessage_step_request_id.
  by destruct (decide (fst x = RequestIdKey)).
Qed.

Lemma foldl_textFormat_step_other f output o :
  foldl (textFormat_step f) output o = foldl (textFormat_step f) output (other_fields o).
Proof.
  apply foldl_filter. intros a x Hx. apply textFormat_step_request_id.
  by destruct (decide (fst x = RequestIdKey)).
Qed.

Lemma getMessage_other_fields f e o o' :
  other_fields o = other_fields o' -> getMessage f e o = getMessage f e o'.
Proof.
  intros H. unfold getMessage.
  destruct (Data e !! RequestIdKey) as [[]|]; exec_unfold; cbn [assert_string]; try done;
    by rewrite (foldl_getMessage_step_other _ o), (foldl_getMessage_step_other _ o'), H.
Qed.

Lemma textFormat_other_fields f e o1 o1' o2 o2' :
  other_fields o1 = other_fields o1' -> other_fields o2 = other_fields o2' ->
  textFormat f e o1 o2 = textFormat f e o1' o2'.
Proof.
  intros H1 H2. unfold textFormat. rewrite (getMessage_other_fields f e o1 o1' H1).
  destruct (getMessage f e o1') as [msg|p]; [|done]. exec_unfold.
  by rewrite (foldl_textFormat_step_other _ _ o2), (foldl_textFormat_step_other _ _ o2'), H2.
Qed.

Lemma jsonFormat_other_fields f e o o' :
  other_fields o = other_fields o' -> jsonFormat f e o = jsonFormat f e o'.
Proof.
  intros H. unfold jsonFormat, jsonFormat_format.
  by rewrite (getMessage_other_fields f e o o' H).
Qed.

(** The fields other than the request id, in the order of any visit, are
    the entries of the map without the request id, in some order. *)
Lemma other_fields_delete (m : gmap string value) o :
  range_order m o -> other_fields o ≡ₚ map_to_list (delete RequestIdKey m).
Proof.
  unfold range_order, other_fields. intros ->.
  apply NoDup_Permutation.
  - apply NoDup_filter, NoDup_map_to_list.
  - apply NoDup_map_to_list.
  - intros [k v]. rewrite list_elem_of_filter, !elem_of_map_to_list, lookup_delete_Some.
    simpl. split; intros [H1 H2]; (split; [congruence|done]).
Qed.

(** With at most one field besides the request id, all visits agree on the
    fields they do not skip. *)
Lemma other_fields_unique (m : gmap string value) o o' :
  size (delete RequestIdKey m) <= 1 ->
  range_order m o -> range_order m o' -> other_fields o = other_fields o'.
Proof.
  intros Hsize Ho Ho'.
  pose proof (other_fields_delete m o Ho) as Hp.
  pose proof (other_fields_delete m o' Ho') as Hp'.
  rewrite <- length_map_to_list in Hsize.
  destruct (map_to_list (delete RequestIdKey m)) as [|x [|y l]]; simpl in Hsize.
  - apply Permutation_nil_r in Hp, Hp'. congruence.
  - apply Permutation_singleton_r in Hp, Hp'. congruence.
  - lia.
Qed.

Lemma range_order_map_to_list (m : gmap string value) : range_order m (map_to_list m).
Proof. unfold range_order. reflexivity. Qed.

Lemma range_order_reverse (m : gmap string value) : range_order m (reverse (map_to_list m)).
Proof. apply reverse_Permutation. Qed.

(** A map with one entry is visited in one way. *)
Lemma range_order_singleton k (v : value) : range_order {[ k := v ]} [(k, v)].
Proof. unfold range_order. by rewrite map_to_list_singleton. Qed.

(** A token that no field token can overlap survives the loop of
    [getMessage]. *)
Lemma getMessage_step_keeps tok output kv :
  (fst kv <> RequestIdKey -> apart (FormatIdentifier (fst kv)) tok = true) ->
  Contains output tok = true -> Contains (getMessage_step output kv) tok = true.
Proof.
  destruct kv as [k v]. simpl. intros Hk Hout.
  destruct (String.eqb_spec k RequestIdKey) as [|Hne]; [done|].
  destruct (Contains output (FormatIdentifier k)); [|done].
  apply Contains_ReplaceFirst; auto.
Qed.

Lemma foldl_getMessage_step_keeps tok o output :
  Forall (fun kv => fst kv <> RequestIdKey -> apart (FormatIdentifier (fst kv)) tok = true) o ->
  Contains output tok = true -> Contains (foldl getMessage_step output o) tok = true.
Proof.
  intros Ho. revert output. induction Ho as [|kv o Hkv Ho IH]; intros output Hout; [done|].
  simpl. apply IH. by apply getMessage_step_keeps.
Qed.

(** The loop of [textFormat] only appends to its output. *)
Lemma textFormat_step_extends f output kv :
  exists suffix, textFormat_step f output kv = output +:+ suffix.
Proof.
  assert (output = output +:+ EmptyString) as Hnil.
  { clear. induction output as [|c s IH]; [done|]. rewrite append_cons. by f_equal. }
  destruct kv as [k v]. unfold textFormat_step, Sprintf_pair.
  repeat match goal with
         | |- context [if ?b then _ else _] => destruct b
         | |- context [match json_Marshal ?x with _ => _ end] => destruct (json_Marshal x) as [? []]
         | |- context [match ?x with VString _ => _ | _ => _ end] => destruct x
         end; eauto.
Qed.

Lemma foldl_textFormat_step_keeps f tok o output :
  Contains output tok = true -> Contains (foldl (textFormat_step f) output o) tok = true.
Proof.
  revert output. induction o as [|kv o IH]; intros output Hout; [done|].
  simpl. apply IH. destruct (textFormat_step_extends f output kv) as [suffix ->].
  by apply Contains_app_l.
Qed.

End Loops.

(** ** The template engine and the renderers *)

Section Renderers.

Implicit Types (f : customFormatter) (e : Entry) (o : list (string * value)).

(** [getMessage] returns exactly when the request id, if there is one, is a
    string. *)
Lemma getMessage_panics f e o v :
  Data e !! RequestIdKey = Some v -> (forall s, v <> VString s) ->
  getMessage f e o = Panic (TypeAssertionString v).
Proof.
  intros Hv Hns. unfold getMessage. rewrite Hv.
  destruct v; try done. by destruct (Hns s).
Qed.

Lemma getMessage_returns f e o :
  (forall v, Data e !! RequestIdKey = Some v -> exists s, v = VString s) ->
  exists msg, getMessage f e o = Ret msg.
Proof.
  intros Hid. unfold getMessage.
  destruct (Data e !! RequestIdKey) as [v|]; [|by eexists].
  destruct (Hid v eq_refl) as [s ->]. by eexists.
Qed.

Lemma textFormat_panics f e o1 o2 v :
  Data e !! RequestIdKey = Some v -> (forall s, v <> VString s) ->
  textFormat f e o1 o2 = Panic (TypeAssertionString v).
Proof. intros Hv Hns. unfold textFormat. by rewrite (getMessage_panics f e o1 v). Qed.

Lemma jsonFormat_panics f e o v :
  Data e !! RequestIdKey = Some v -> (forall s, v <> VString s) ->
  jsonFormat f e o = Panic (TypeAssertionString v).
Proof.
  intros Hv Hns. unfold jsonFormat, jsonFormat_format.
  by rewrite (getMessage_panics f e o v).
Qed.

Lemma textFormat_returns f e o1 o2 msg :
  getMessage f e o1 = Ret msg ->
  textFormat f e o1 o2 = Ret (Sprintln (foldl (textFormat_step f) msg o2), None).
Proof. intros H. unfold textFormat. by rewrite H. Qed.

Lemma jsonFormat_format_returns f e o :
  (forall v, Data e !! RequestIdKey = Some v -> exists s, v = VString s) ->
  exists x, jsonFormat_format f e o = Ret x.
Proof.
  intros Hid. destruct (getMessage_returns f e o Hid) as [msg Hmsg].
  unfold jsonFormat_format. rewrite Hmsg. exec_unfold.
  destruct (Data e !! RequestIdKey) as [v|]; [|by eexists].
  destruct (Hid v eq_refl) as [s ->]. by eexists.
Qed.

Lemma jsonFormat_returns f e o :
  (forall v, Data e !! RequestIdKey = Some v -> exists s, v = VString s) ->
  exists bytes err, jsonFormat f e o = Ret (bytes, err).
Proof.
  intros Hid. destruct (jsonFormat_format_returns f e o Hid) as [x Hx].
  unfold jsonFormat. rewrite Hx. exec_unfold.
  destruct (json_Marshal_format x) as [b err]. by eexists _, _.
Qed.

Lemma MsgFormat_not_empty f :
  MsgFormat f <> EmptyString -> String.eqb (MsgFormat f) EmptyString = false.
Proof. intros H. by destruct (String.eqb_spec (MsgFormat f) EmptyString). Qed.

End Renderers.

(** * The claims *)

(** C1. In JSON mode the bytes that [Format] returns are not the JSON text:
    [jsonFormat] passes the [[]byte] of [json.Marshal] to [fmt.Sprintln],
    which prints the bytes in decimal between square brackets. For the entry
    with level info, message hello and request id abc123, under the template
    [<msg>], the object handed to [json.Marshal] has the level INFO and the id
    abc123, and the output is the decimal rendering below of its encoding,
    which no JSON decoder accepts. *)
Theorem jsonFormat_prints_decimal_bytes :
  range_order (Data entry_with_id) [(RequestIdKey, VString "abc123")]
  /\ jsonFormat_format cfg_json entry_with_id [(RequestIdKey, VString "abc123")]
     = Ret {| Timestamp := "2024-01-02T03:04:05Z"; Level_json := "INFO";
              ID := Some "abc123"; Message_json := "hello";
              Data_json := Data entry_with_id |}
  /\ Format cfg_json entry_with_id [(RequestIdKey, VString "abc123")] []
     = Ret (Rendered (Sprintln
      "[123 34 116 105 109 101 115 116 97 109 112 34 58 34 50 48 50 52 45 48 49 45 48 50 84 48 51 58 48 52 58 48 53 90 34 44 34 108 101 118 101 108 34 58 34 73 78 70 79 34 44 34 105 100 34 58 34 97 98 99 49 50 51 34 44 34 109 101 115 115 97 103 101 34 58 34 104 101 108 108 111 34 44 34 100 97 116 97 34 58 123 34 88 45 82 101 113 117 101 115 116 45 73 68 34 58 34 97 98 99 49 50 51 34 125 125]")
      None).
Proof.
  split; [apply range_order_singleton|]. split; [reflexivity|].
  vm_compute. reflexivity.
Qed.

(** C2. In text mode a field whose token was substituted in the template is
    appended all the same: [textFormat] looks for the token in the message
    already rendered, where the substitution has removed it. Template
    [<region> <msg>], field region = us-east, message hello. *)
Theorem textFormat_appends_consumed_field :
  range_order (Data entry_region) [("region", VString "us-east")]
  /\ Format cfg_region entry_region
       [("region", VString "us-east")] [("region", VString "us-east")]
     = Ret (Rendered (Sprintln "us-east hello | region = us-east") None).
Proof.
  split; [apply range_order_singleton|]. vm_compute. reflexivity.
Qed.

(** C3, as stated, fails: the two loops range over a Go map, whose order of
    visit is not fixed. With the fields a = 1 and b = 2 the two possible
    visits give different bytes. *)
Lemma Format_depends_on_range_order :
  range_order (Data entry_two_fields) order_a_b
  /\ range_order (Data entry_two_fields) order_b_a
  /\ Format cfg_text entry_two_fields order_a_b order_a_b
     = Ret (Rendered (Sprintln "hello | a = 1 | b = 2") None)
  /\ Format cfg_text entry_two_fields order_b_a order_b_a
     = Ret (Rendered (Sprintln "hello | b = 2 | a = 1") None)
  /\ Format cfg_text entry_two_fields order_a_b order_a_b
     <> Format cfg_text entry_two_fields order_b_a order_b_a.
Proof.
  assert (map_to_list (Data entry_two_fields) = order_a_b) as Hl
    by (vm_compute; reflexivity).
  unfold range_order. rewrite Hl.
  split; [reflexivity|]. split; [apply perm_swap|].
  split; [vm_compute; reflexivity|]. split; [vm_compute; reflexivity|].
  vm_compute. discriminate.
Qed.

(** C3, amended. [Format] is a function of the configuration, the record
    and the orders in which its two loops visit the fields; when the record
    has at most one field besides the request id, the result is the same
    for all possible visits, hence the same in all calls. *)
Theorem Format_deterministic_single_field f e o1 o2 o1' o2' :
  size (delete RequestIdKey (Data e)) <= 1 ->
  range_order (Data e) o1 -> range_order (Data e) o2 ->
  range_order (Data e) o1' -> range_order (Data e) o2' ->
  Format f e o1 o2 = Format f e o1' o2'.
Proof.
  intros Hsize H1 H2 H1' H2'. unfold Format.
  rewrite (jsonFormat_other_fields f e o1 o1'),
    (textFormat_other_fields f e o1 o1' o2 o2');
    eauto using other_fields_unique.
Qed.

Lemma Format_deterministic_single_field_witness :
  Format cfg_region entry_region
    (map_to_list (Data entry_region)) (map_to_list (Data entry_region))
  = Format cfg_region entry_region
      (reverse (map_to_list (Data entry_region))) (reverse (map_to_list (Data entry_region))).
Proof.
  apply Format_deterministic_single_field.
  - vm_compute. lia.
  - apply range_order_map_to_list.
  - apply range_order_map_to_list.
  - apply range_order_reverse.
  - apply range_order_reverse.
Defined.

(** C4. With an empty message [getMessage] removes the first [ [<msg>]]
    whether or not the formatter is the default one; the test of
    [isDefault] that guards the removal of [ [<id>]] is missing for the
    message. With [isDefault] false, template [[<level>] [<msg>]] and an
    empty message the token is removed, not left in the output. *)
Theorem getMessage_elides_msg_without_isDefault :
  isDefault cfg_bracketed_msg = false
  /\ Message entry_no_message = EmptyString
  /\ getMessage cfg_bracketed_msg entry_no_message [] = Ret "[ INFO]"
  /\ Format cfg_bracketed_msg entry_no_message [] []
     = Ret (Rendered (Sprintln "[ INFO]") None).
Proof. repeat split; vm_compute; reflexivity. Qed.

(** C5, as stated, fails: a field named id has the token [<id>], and the
    loop over the fields substitutes it. *)
Lemma id_token_taken_by_field_named_id :
  Data entry_field_named_id !! RequestIdKey = None
  /\ isDefault cfg_id_token = false
  /\ Contains (MsgFormat cfg_id_token) logIdKey = true
  /\ range_order (Data entry_field_named_id) [("id", VInt 42)]
  /\ getMessage cfg_id_token entry_field_named_id [("id", VInt 42)] = Ret "42 hello"
  /\ Contains "42 hello" logIdKey = false.
Proof.
  split; [vm_compute; reflexivity|]. split; [reflexivity|]. split; [reflexivity|].
  split; [apply range_order_singleton|]. split; vm_compute; reflexivity.
Qed.

(** C5, amended. For a record without the request id whose field tokens do
    not contain [<id>], and a formatter with [isDefault] false whose
    template contains [<id>], the token [<id>] is still in the message that
    [getMessage] returns and in the bytes of the text renderer. *)
Theorem id_token_left_verbatim f e o1 o2 :
  Data e !! RequestIdKey = None ->
  isDefault f = false ->
  Contains (MsgFormat f) logIdKey = true ->
  (forall k, is_Some (Data e !! k) -> Contains (FormatIdentifier k) logIdKey = false) ->
  range_order (Data e) o1 ->
  exists msg bytes,
    getMessage f e o1 = Ret msg /\ Contains msg logIdKey = true
    /\ textFormat f e o1 o2 = Ret (bytes, None) /\ Contains bytes logIdKey = true.
Proof.
  intros Hid Hdef Htpl Hkeys Ho1.
  assert (exists msg, getMessage f e o1 = Ret msg /\ Contains msg logIdKey = true)
    as (msg & Hmsg & Hin).
  { unfold getMessage. rewrite Hid, Hdef. exec_unfold. eexists. split; [reflexivity|].
    assert (Contains (foldl getMessage_step
              (ReplaceFirst (ReplaceFirst (MsgFormat f) logTimeKey
                               (Time_Format (Time_ e) (TimeFormat f)))
                 logLevelKey (Sprintf_5s (ToUpper (Level_String (Level_ e))))) o1)
              logIdKey = true) as Hloop.
    { apply foldl_getMessage_step_keeps.
      - apply Forall_forall. intros [k v] Hkv _. apply apart_FormatIdentifier, Hkeys.
        unfold range_order in Ho1. rewrite Ho1 in Hkv.
        apply elem_of_map_to_list in Hkv. by exists v.
      - apply Contains_ReplaceFirst; [apply apart_logLevelKey|].
        apply Contains_ReplaceFirst; [apply apart_logTimeKey|done]. }
    destruct (String.eqb (Message e) EmptyString).
    - apply Contains_ReplaceFirst; [apply apart_bracketed_logMsgKey|done].
    - apply Contains_ReplaceFirst; [apply apart_logMsgKey|done]. }
  exists msg, (Sprintln (foldl (textFormat_step f) msg o2)).
  split; [done|]. split; [done|]. split; [by apply textFormat_returns|].
  unfold Sprintln. apply Contains_app_l. by apply foldl_textFormat_step_keeps.
Qed.

Lemma id_token_left_verbatim_witness :
  exists msg bytes,
    getMessage cfg_id_token entry_region (map_to_list (Data entry_region)) = Ret msg
    /\ Contains msg logIdKey = true
    /\ textFormat cfg_id_token entry_region
         (map_to_list (Data entry_region)) (map_to_list (Data entry_region))
       = Ret (bytes, None)
    /\ Contains bytes logIdKey = true.
Proof.
  apply id_token_left_verbatim.
  - vm_compute. reflexivity.
  - reflexivity.
  - reflexivity.
  - intros k [v Hk]. unfold entry_region in Hk. cbn [Data] in Hk.
    apply lookup_singleton_Some in Hk as [<- _]. reflexivity.
  - apply range_order_map_to_list.
Defined.

(** C7, as stated, fails: with a request id that is not a string the text
    path panics and returns no error value at all. *)
Lemma Format_text_panics_on_numeric_id :
  MsgFormat cfg_text <> EmptyString
  /\ jsonOutput cfg_text = false
  /\ range_order (Data entry_numeric_request_id) [(RequestIdKey, VInt 7)]
  /\ Format cfg_text entry_numeric_request_id
       [(RequestIdKey, VInt 7)] [(RequestIdKey, VInt 7)]
     = Panic (TypeAssertionString (VInt 7)).
Proof.
  split; [discriminate|]. split; [reflexivity|].
  split; [apply range_order_singleton|]. vm_compute. reflexivity.
Qed.

(** C7, amended. For a record whose request id, when present, is a string,
    and a formatter with a non-empty template and JSON mode disabled,
    [Format] returns bytes and a nil error. *)
Theorem Format_text_nil_error f e o1 o2 :
  MsgFormat f <> EmptyString ->
  jsonOutput f = false ->
  (forall v, Data e !! RequestIdKey = Some v -> exists s, v = VString s) ->
  exists bytes, Format f e o1 o2 = Ret (Rendered bytes None).
Proof.
  intros Htpl Hjson Hid. unfold Format.
  rewrite (MsgFormat_not_empty f Htpl), Hjson.
  destruct (getMessage_returns f e o1 Hid) as [msg Hmsg].
  rewrite (textFormat_returns f e o1 o2 msg Hmsg). by eexists.
Qed.

Lemma Format_text_nil_error_witness :
  exists bytes,
    Format cfg_text entry_with_id
      (map_to_list (Data entry_with_id)) (map_to_list (Data entry_with_id))
    = Ret (Rendered bytes None).
Proof.
  apply Format_text_nil_error.
  - discriminate.
  - reflexivity.
  - intros v Hv. unfold entry_with_id in Hv. cbn [Data] in Hv.
    rewrite lookup_singleton_eq in Hv. inversion Hv. by eexists.
Defined.

(** C8. In the loop of the text renderer, a field that is not skipped and
    whose value is a map that [json.Marshal] refuses is appended as
    [key = value] with the [%v] form of the map; the loop goes on with the
    fields that follow and the renderer returns a nil error. *)
Theorem textFormat_marshal_failure_falls_back f e o1 pre post k m msg :
  getMessage f e o1 = Ret msg ->
  k <> RequestIdKey ->
  Contains (foldl (textFormat_step f) msg pre) (FormatIdentifier k) = false ->
  snd (json_Marshal (VMap m)) <> None ->
  textFormat f e o1 (pre ++ (k, VMap m) :: post)
  = Ret (Sprintln
           (foldl (textFormat_step f)
              (Sprintf_pair (foldl (textFormat_step f) msg pre)
                 (textDataSeparator f) k (fmt_v (VMap m)))
              post),
         None).
Proof.
  intros Hmsg Hk Htok Hfail.
  rewrite (textFormat_returns f e o1 _ msg Hmsg), foldl_app.
  cbn [foldl]. do 3 f_equal.
  unfold textFormat_step at 2.
  destruct (String.eqb_spec k RequestIdKey) as [|_]; [done|].
  rewrite Htok. destruct (json_Marshal (VMap m)) as [jsonVal [err|]]; done.
Qed.

Lemma textFormat_marshal_failure_falls_back_witness :
  textFormat cfg_text entry_with_channel
    [("conn", VMap map_with_channel)] ([] ++ ("conn", VMap map_with_channel) :: [])
  = Ret (Sprintln "hello | conn = map[done:0xc000012345]", None).
Proof.
  apply (textFormat_marshal_failure_falls_back
           cfg_text entry_with_channel [("conn", VMap map_with_channel)] [] []
           "conn" map_with_channel "hello").
  - vm_compute. reflexivity.
  - discriminate.
  - vm_compute. reflexivity.
  - vm_compute. discriminate.
Defined.

(** C9. [NewFormatter] leaves [textDataSeparator] at the zero value, the
    empty string, where [DefaultFormatter] sets [defaultDataSeparator]: with
    a formatter made by [NewFormatter] on which [SetDataSeparator] was never
    called, the pairs are appended with no separator. Template [<msg>], field
    region = us-east, message hello. *)
Theorem NewFormatter_has_empty_separator :
  textDataSeparator (DefaultFormatter EmptyString) = " |"
  /\ textDataSeparator cfg_msg_only = EmptyString
  /\ range_order (Data entry_region) [("region", VString "us-east")]
  /\ Format cfg_msg_only entry_region
       [("region", VString "us-east")] [("region", VString "us-east")]
     = Ret (Rendered (Sprintln "hello region = us-east") None).
Proof.
  split; [reflexivity|]. split; [reflexivity|].
  split; [apply range_order_singleton|]. vm_compute. reflexivity.
Qed.

(** C10, as stated, fails: with an empty template [Format] does not run
    the template engine, whatever the JSON flag, and returns without a panic
    for a record whose request id is a number. *)
Lemma Format_empty_template_returns_on_numeric_id :
  Data entry_numeric_request_id !! RequestIdKey = Some (VInt 7)
  /\ MsgFormat NewFormatter = EmptyString
  /\ Format NewFormatter entry_numeric_request_id
       [(RequestIdKey, VInt 7)] [(RequestIdKey, VInt 7)]
     = Ret (Baseline entry_numeric_request_id)
  /\ Format (SetJsonOutput NewFormatter) entry_numeric_request_id
       [(RequestIdKey, VInt 7)] [(RequestIdKey, VInt 7)]
     = Ret (Baseline entry_numeric_request_id).
Proof.
  split; [apply lookup_singleton_eq|]. split; [reflexivity|].
  split; reflexivity.
Qed.

(** C10, amended. With a non-empty template, in text mode and in JSON mode
    alike, [Format] panics on the type assertion when the record binds
    [X-Request-ID] to a value that is not a string, and returns when the
    request id is absent or a string. *)
Theorem Format_panics_iff_request_id_not_string f e o1 o2 :
  MsgFormat f <> EmptyString ->
  (forall v, Data e !! RequestIdKey = Some v -> (forall s, v <> VString s) ->
     Format f e o1 o2 = Panic (TypeAssertionString v))
  /\ ((forall v, Data e !! RequestIdKey = Some v -> exists s, v = VString s) ->
      exists bytes err, Format f e o1 o2 = Ret (Rendered bytes err)).
Proof.
  intros Htpl. unfold Format. rewrite (MsgFormat_not_empty f Htpl). split.
  - intros v Hv Hns. destruct (jsonOutput f).
    + by rewrite (jsonFormat_panics f e o1 v).
    + by rewrite (textFormat_panics f e o1 o2 v).
  - intros Hid. destruct (jsonOutput f).
    + destruct (jsonFormat_returns f e o1 Hid) as (bytes & err & ->). by eexists _, _.
    + destruct (getMessage_returns f e o1 Hid) as [msg Hmsg].
      rewrite (textFormat_returns f e o1 o2 msg Hmsg). by eexists _, _.
Qed.

Lemma Format_panics_iff_request_id_not_string_witness :
  Format cfg_json entry_numeric_request_id [(RequestIdKey, VInt 7)] []
  = Panic (TypeAssertionString (VInt 7))
  /\ Format cfg_text entry_numeric_request_id
       [(RequestIdKey, VInt 7)] [(RequestIdKey, VInt 7)]
     = Panic (TypeAssertionString (VInt 7)).
Proof.
  split.
  - apply (Format_panics_iff_request_id_not_string cfg_json); [discriminate| |discriminate].
    vm_compute. reflexivity.
  - apply (Format_panics_iff_request_id_not_string cfg_text); [discriminate| |discriminate].
    vm_compute. reflexivity.
Defined.

(** * Further properties of the formatter *)

(** ** More facts on the string functions *)

Section MoreStringFacts.

Implicit Types s t u a old new q : string.

Lemma append_empty_r s : s +:+ EmptyString = s.
Proof. induction s as [|c s IH]; [done|]. rewrite append_cons. by f_equal. Qed.

Lemma Contains_false_cons c s a :
  Contains (String c s) a = false ->
  HasPrefix (String c s) a = false /\ Contains s a = false.
Proof. rewrite Contains_cons. apply orb_false_iff. Qed.

Lemma ReplaceFirst_miss c s old new :
  HasPrefix (String c s) old = false ->
  ReplaceFirst (String c s) old new = String c (ReplaceFirst s old new).
Proof. intros H. cbn [ReplaceFirst]. by rewrite H. Qed.

Lemma ReplaceFirst_hit s old new :
  HasPrefix s old = true ->
  ReplaceFirst s old new = new +:+ string_drop (String.length old) s.
Proof. intros H. destruct s; cbn [ReplaceFirst]; by rewrite H. Qed.

(** [strings.Replace] returns its argument when [old] does not occur. *)
Lemma ReplaceFirst_absent s old new :
  Contains s old = false -> ReplaceFirst s old new = s.
Proof.
  induction s as [|c s IH].
  - cbn. rewrite orb_false_r. by intros ->.
  - intros H. apply Contains_false_cons in H as [Hp Hc].
    rewrite ReplaceFirst_miss by done. f_equal. auto.
Qed.

Lemma Contains_trans s b a :
  Contains s b = true -> Contains b a = true -> Contains s a = true.
Proof.
  intros Hsb Hba. induction s as [|c s IH].
  - cbn in Hsb. rewrite orb_false_r in Hsb. destruct b; [done|discriminate].
  - rewrite Contains_cons in Hsb. apply orb_true_iff in Hsb as [Hp|Hc].
    + rewrite (HasPrefix_split _ _ Hp). by apply Contains_app_l.
    + rewrite Contains_cons, IH by done. apply orb_true_r.
Qed.

Lemma Contains_absent_larger s b a :
  Contains s a = false -> Contains b a = true -> Contains s b = false.
Proof.
  intros Hsa Hba. destruct (Contains s b) eqn:Hsb; [|done].
  by rewrite (Contains_trans s b a Hsb Hba) in Hsa.
Qed.

Lemma mem_char_app x s t : mem_char x (s +:+ t) = mem_char x s || mem_char x t.
Proof.
  induction s as [|c s IH]; [done|].
  rewrite append_cons. cbn [mem_char]. by rewrite IH, orb_assoc.
Qed.

(** Over a text without [x] that is followed by [c], a guarded [old] does
    not match. *)
Lemma HasPrefix_guarded x c u q old :
  mem_char x u = false -> guarded x c old = true ->
  HasPrefix (u +:+ String c q) old = false.
Proof.
  revert old. induction u as [|a u IH]; intros old Hu Hg.
  - destruct old as [|d r]; [done|].
    change (EmptyString +:+ String c q) with (String c q). cbn [HasPrefix].
    cbn in Hg. apply andb_true_iff in Hg as [Hd _]. apply negb_true_iff in Hd.
    by rewrite Hd.
  - destruct old as [|d r]; [done|]. rewrite append_cons. cbn [HasPrefix].
    cbn in Hu, Hg. apply orb_false_iff in Hu as [Hxa Hu].
    apply andb_true_iff in Hg as [_ Hg].
    destruct (Ascii.eqb_spec d a) as [->|]; [|done].
    apply orb_true_iff in Hg as [Hg|Hg].
    + apply Ascii.eqb_eq in Hg. subst. by rewrite Ascii.eqb_refl in Hxa.
    + by apply IH.
Qed.

(** The replacement passes over such a text. *)
Lemma ReplaceFirst_pass x c t q old new :
  mem_char x t = false -> guarded x c old = true ->
  ReplaceFirst (t +:+ String c q) old new = t +:+ ReplaceFirst (String c q) old new.
Proof.
  intros Ht Hg. induction t as [|a t IH]; [done|].
  rewrite !append_cons.
  rewrite ReplaceFirst_miss.
  - f_equal. apply IH. cbn in Ht. by apply orb_false_iff in Ht as [_ ?].
  - rewrite <- append_cons. by apply (HasPrefix_guarded x).
Qed.

Lemma string_drop_app s q : string_drop (String.length s) (s +:+ q) = q.
Proof. induction s as [|c s IH]; [done|]. rewrite append_cons. apply IH. Qed.

Lemma HasPrefix_app_self s q : HasPrefix (s +:+ q) s = true.
Proof.
  induction s as [|c s IH]; [apply HasPrefix_empty|].
  rewrite append_cons. by apply HasPrefix_cons.
Qed.

(** A text without the first byte of [old] is passed over, and the
    occurrence that follows it is the one replaced. *)
Lemma ReplaceFirst_after x p r q new :
  mem_char x p = false ->
  ReplaceFirst (p +:+ String x r +:+ q) (String x r) new = p +:+ new +:+ q.
Proof.
  intros Hp. induction p as [|a p IH].
  - change (EmptyString +:+ String x r +:+ q) with (String x r +:+ q).
    rewrite ReplaceFirst_hit by apply HasPrefix_app_self.
    by rewrite string_drop_app.
  - cbn in Hp. apply orb_false_iff in Hp as [Hxa Hp].
    rewrite !(append_cons a p), ReplaceFirst_miss; [by rewrite IH|].
    cbn. by rewrite Hxa.
Qed.

End MoreStringFacts.

(** ** Configuration *)

Section Configuration.

Implicit Types (f : customFormatter) (e : Entry) (o : list (string * value)).

Lemma getMessage_without_time_token f e o layout :
  Contains (MsgFormat f) logTimeKey = false ->
  getMessage (SetTimeFormat f layout) e o = getMessage f e o.
Proof.
  intros H. unfold getMessage. cbn [MsgFormat isDefault TimeFormat SetTimeFormat].
  by rewrite !(ReplaceFirst_absent (MsgFormat f) logTimeKey).
Qed.

Lemma other_fields_empty (m : gmap string value) o :
  delete RequestIdKey m = ∅ -> range_order m o -> other_fields o = [].
Proof.
  intros Hm Ho. apply Permutation_nil_r.
  rewrite (other_fields_delete m o Ho), Hm. by rewrite map_to_list_empty.
Qed.

Lemma foldl_getMessage_step_absent o output :
  Forall (fun kv => Contains output (FormatIdentifier (fst kv)) = false) o ->
  foldl getMessage_step output o = output.
Proof.
  induction 1 as [|[k v] o Hk _ IH]; [done|].
  cbn [foldl getMessage_step]. cbn [fst] in Hk. rewrite Hk.
  by destruct (String.eqb k RequestIdKey).
Qed.

Lemma Level_String_names (l : Level) : In (Level_String l) level_names.
Proof.
  unfold level_names.
  destruct l as [|[[[p|p|]|[p|p|]|]|[[p|p|]|[p|p|]|]|]]; cbn; tauto.
Qed.

End Configuration.

(** X1. The prefix is stored and never read: neither [SetLogPrefix] nor the
    argument of [DefaultFormatter] changes what [Format] returns. *)
Theorem Format_ignores_MsgPrefix f prefix e o1 o2 :
  Format (SetLogPrefix f prefix) e o1 o2 = Format f e o1 o2
  /\ Format (DefaultFormatter prefix) e o1 o2
     = Format (DefaultFormatter EmptyString) e o1 o2.
Proof. split; reflexivity. Qed.

(** X2. A formatter made by [NewFormatter] on which [SetLogFormat] was not
    called hands every entry to the text formatter of logrus, whatever the
    other setters were given, JSON mode included, and also when the request
    id is not a string: the template engine is never run. *)
Theorem NewFormatter_without_template_delegates prefix sep layout e o1 o2 :
  Format (SetTimeFormat (SetDataSeparator (SetLogPrefix NewFormatter prefix) sep) layout)
    e o1 o2 = Ret (Baseline e)
  /\ Format (SetJsonOutput
               (SetTimeFormat (SetDataSeparator (SetLogPrefix NewFormatter prefix) sep) layout))
       e o1 o2 = Ret (Baseline e).
Proof. split; reflexivity. Qed.

(** X3. In JSON mode neither the separator nor the order of the loop of the
    text renderer has any effect on what [Format] returns. *)
Theorem Format_json_ignores_separator f sep e o1 o2 o2' :
  jsonOutput f = true ->
  Format (SetDataSeparator f sep) e o1 o2 = Format f e o1 o2'.
Proof.
  intros Hjson. unfold Format. cbn [MsgFormat jsonOutput SetDataSeparator].
  rewrite Hjson. reflexivity.
Qed.

Lemma Format_json_ignores_separator_witness :
  Format (SetDataSeparator cfg_json "; ") entry_two_fields order_a_b order_a_b
  = Format cfg_json entry_two_fields order_a_b order_b_a.
Proof. apply Format_json_ignores_separator. reflexivity. Defined.

(** X4. When the template has no [<time>] token the time layout has no effect
    on what [Format] returns, in text mode and in JSON mode. *)
Theorem Format_ignores_TimeFormat_without_time_token f layout e o1 o2 :
  Contains (MsgFormat f) logTimeKey = false ->
  Format (SetTimeFormat f layout) e o1 o2 = Format f e o1 o2.
Proof.
  intros H. unfold Format, jsonFormat, jsonFormat_format, textFormat.
  rewrite (getMessage_without_time_token f e o1 layout H). reflexivity.
Qed.

Lemma Format_ignores_TimeFormat_without_time_token_witness :
  Format (SetTimeFormat cfg_region "15:04:05") entry_region
    [("region", VString "us-east")] [("region", VString "us-east")]
  = Format cfg_region entry_region
      [("region", VString "us-east")] [("region", VString "us-east")].
Proof. apply Format_ignores_TimeFormat_without_time_token. reflexivity. Defined.

(** X5. A template that contains none of the four fixed tokens and the token
    of no field is the rendered message, unchanged, provided the request id
    is absent or a string. *)
Theorem getMessage_template_without_tokens f e o :
  (forall v, Data e !! RequestIdKey = Some v -> exists s, v = VString s) ->
  Contains (MsgFormat f) logTimeKey = false ->
  Contains (MsgFormat f) logLevelKey = false ->
  Contains (MsgFormat f) logIdKey = false ->
  Contains (MsgFormat f) logMsgKey = false ->
  Forall (fun kv => Contains (MsgFormat f) (FormatIdentifier (fst kv)) = false) o ->
  getMessage f e o = Ret (MsgFormat f).
Proof.
  intros Hid Ht Hl Hi Hm Ho. unfold getMessage.
  rewrite (ReplaceFirst_absent _ logTimeKey) by done.
  rewrite (ReplaceFirst_absent _ logLevelKey) by done.
  assert (Contains (MsgFormat f) (" [" +:+ logIdKey +:+ "]") = false) as Hib
    by (by apply (Contains_absent_larger _ _ logIdKey)).
  assert (Contains (MsgFormat f) (" [" +:+ logMsgKey +:+ "]") = false) as Hmb
    by (by apply (Contains_absent_larger _ _ logMsgKey)).
  assert (forall output, output = MsgFormat f ->
            @Ret string
              (if String.eqb (Message e) EmptyString
               then ReplaceFirst (foldl getMessage_step output o)
                      (" [" +:+ logMsgKey +:+ "]") EmptyString
               else ReplaceFirst (foldl getMessage_step output o) logMsgKey (Message e))
            = Ret (MsgFormat f)) as Hrest.
  { intros output ->. rewrite (foldl_getMessage_step_absent o) by done.
    destruct (String.eqb (Message e) EmptyString); by rewrite ReplaceFirst_absent. }
  destruct (Data e !! RequestIdKey) as [v|] eqn:Hv.
  - destruct (Hid v eq_refl) as [s ->]. exec_unfold. cbn [assert_string].
    apply Hrest. by apply ReplaceFirst_absent.
  - exec_unfold. apply Hrest. destruct (isDefault f); [|done].
    by apply ReplaceFirst_absent.
Qed.

Lemma getMessage_template_without_tokens_witness :
  getMessage (SetLogFormat NewFormatter "request served") entry_region
    [("region", VString "us-east")]
  = Ret "request served".
Proof.
  apply (getMessage_template_without_tokens
           (SetLogFormat NewFormatter "request served") entry_region).
  - intros v Hv. vm_compute in Hv. discriminate.
  - reflexivity.
  - reflexivity.
  - reflexivity.
  - reflexivity.
  - repeat constructor.
Defined.

(** ** The default line *)

Section DefaultLine.

Implicit Types (T L s m : string).

Lemma append_empty_l s : EmptyString +:+ s = s.
Proof. reflexivity. Qed.

Lemma level_column_plain (l : Level) : mem_char "<" (level_column l) = false.
Proof.
  unfold level_column. pose proof (Level_String_names l) as H.
  unfold level_names in H. cbn [In] in H.
  repeat (destruct H as [<-|H]; [reflexivity|]). done.
Qed.

Ltac normalise := rewrite ?append_cons, ?append_empty_l.

Ltac miss :=
  first [ reflexivity
        | cbn; apply (HasPrefix_guarded "<" "]"); [assumption|reflexivity] ].

Ltac walk :=
  repeat first
    [ rewrite ReplaceFirst_miss by miss
    | rewrite (ReplaceFirst_pass "<" "]") by (assumption || reflexivity) ].

(** The four fixed substitutions on the default template, when the rendered
    time, the level column and the id have no [<]. *)
Lemma default_template_with_id T L s m :
  mem_char "<" T = false -> mem_char "<" L = false -> mem_char "<" s = false ->
  (if String.eqb m EmptyString
   then ReplaceFirst
          (ReplaceFirst (ReplaceFirst (ReplaceFirst defaultMsgFormat logTimeKey T)
                           logLevelKey L) logIdKey s)
          (" [" +:+ logMsgKey +:+ "]") EmptyString
   else ReplaceFirst
          (ReplaceFirst (ReplaceFirst (ReplaceFirst defaultMsgFormat logTimeKey T)
                           logLevelKey L) logIdKey s)
          logMsgKey m)
  = "[" +:+ T +:+ "] [" +:+ L +:+ "] [" +:+ s +:+ "] "
    +:+ (if String.eqb m EmptyString then logMsgKey else m).
Proof.
  intros HT HL Hs.
  change (ReplaceFirst defaultMsgFormat logTimeKey T)
    with (String "[" (T +:+ String "]" " [<level>] [<id>] <msg>")).
  assert (ReplaceFirst (String "[" (T +:+ String "]" " [<level>] [<id>] <msg>"))
            logLevelKey L
          = String "[" (T +:+ String "]" (String " " (String "["
              (L +:+ String "]" " [<id>] <msg>"))))) as ->.
  { unfold logLevelKey. walk. rewrite ReplaceFirst_hit by reflexivity. reflexivity. }
  assert (ReplaceFirst (String "[" (T +:+ String "]" (String " " (String "["
              (L +:+ String "]" " [<id>] <msg>"))))) logIdKey s
          = String "[" (T +:+ String "]" (String " " (String "["
              (L +:+ String "]" (String " " (String "["
                 (s +:+ String "]" " <msg>")))))))) as ->.
  { unfold logIdKey. walk. rewrite ReplaceFirst_hit by reflexivity. reflexivity. }
  unfold logMsgKey. normalise.
  destruct (String.eqb m EmptyString).
  - walk. rewrite ReplaceFirst_absent by reflexivity. reflexivity.
  - walk. rewrite ReplaceFirst_hit by reflexivity.
    cbn [String.length string_drop]. by rewrite append_empty_r.
Qed.

Lemma default_template_without_id T L m :
  mem_char "<" T = false -> mem_char "<" L = false ->
  (if String.eqb m EmptyString
   then ReplaceFirst
          (ReplaceFirst (ReplaceFirst (ReplaceFirst defaultMsgFormat logTimeKey T)
                           logLevelKey L) (" [" +:+ logIdKey +:+ "]") EmptyString)
          (" [" +:+ logMsgKey +:+ "]") EmptyString
   else ReplaceFirst
          (ReplaceFirst (ReplaceFirst (ReplaceFirst defaultMsgFormat logTimeKey T)
                           logLevelKey L) (" [" +:+ logIdKey +:+ "]") EmptyString)
          logMsgKey m)
  = "[" +:+ T +:+ "] [" +:+ L +:+ "] "
    +:+ (if String.eqb m EmptyString then logMsgKey else m).
Proof.
  intros HT HL.
  change (ReplaceFirst defaultMsgFormat logTimeKey T)
    with (String "[" (T +:+ String "]" " [<level>] [<id>] <msg>")).
  assert (ReplaceFirst (String "[" (T +:+ String "]" " [<level>] [<id>] <msg>"))
            logLevelKey L
          = String "[" (T +:+ String "]" (String " " (String "["
              (L +:+ String "]" " [<id>] <msg>"))))) as ->.
  { unfold logLevelKey. walk. rewrite ReplaceFirst_hit by reflexivity. reflexivity. }
  assert (ReplaceFirst (String "[" (T +:+ String "]" (String " " (String "["
              (L +:+ String "]" " [<id>] <msg>")))))
            (" [" +:+ logIdKey +:+ "]") EmptyString
          = String "[" (T +:+ String "]" (String " " (String "["
              (L +:+ String "]" " <msg>"))))) as ->.
  { unfold logIdKey. normalise. walk. rewrite ReplaceFirst_hit by reflexivity.
    reflexivity. }
  unfold logMsgKey. normalise.
  destruct (String.eqb m EmptyString).
  - walk. rewrite ReplaceFirst_absent by reflexivity. reflexivity.
  - walk. rewrite ReplaceFirst_hit by reflexivity.
    cbn [String.length string_drop]. by rewrite append_empty_r.
Qed.

End DefaultLine.

(** X6. The line of the default formatter for a record that carries a
    string request id and no other field, when neither the rendered time nor
    the id contains [<]: time, level column and id between square brackets,
    then the message, then a newline, with nil error. An empty message leaves
    the token [<msg>] in the line: the default template has no [ [<msg>]] to
    remove. *)
Theorem DefaultFormatter_line_with_id prefix e o1 o2 s :
  Data e !! RequestIdKey = Some (VString s) ->
  delete RequestIdKey (Data e) = ∅ ->
  range_order (Data e) o1 -> range_order (Data e) o2 ->
  mem_char "<" (Time_Format (Time_ e) RFC3339) = false ->
  mem_char "<" s = false ->
  Format (DefaultFormatter prefix) e o1 o2
  = Ret (Rendered
           (Sprintln ("[" +:+ Time_Format (Time_ e) RFC3339 +:+ "] ["
                      +:+ level_column (Level_ e) +:+ "] [" +:+ s +:+ "] "
                      +:+ (if String.eqb (Message e) EmptyString
                           then logMsgKey else Message e)))
           None).
Proof.
  intros Hid Hrest Ho1 Ho2 HT Hs.
  assert (getMessage (DefaultFormatter prefix) e o1
          = Ret ("[" +:+ Time_Format (Time_ e) RFC3339 +:+ "] ["
                 +:+ level_column (Level_ e) +:+ "] [" +:+ s +:+ "] "
                 +:+ (if String.eqb (Message e) EmptyString
                      then logMsgKey else Message e))) as Hmsg.
  { unfold getMessage. rewrite Hid. exec_unfold. cbn [assert_string].
    rewrite foldl_getMessage_step_other, (other_fields_empty (Data e) o1) by done.
    cbn [foldl]. f_equal.
    apply (default_template_with_id _ (level_column (Level_ e)));
      auto using level_column_plain. }
  unfold Format. cbn [MsgFormat jsonOutput DefaultFormatter].
  rewrite (textFormat_returns _ e o1 o2 _ Hmsg).
  rewrite foldl_textFormat_step_other, (other_fields_empty (Data e) o2) by done.
  reflexivity.
Qed.

Lemma DefaultFormatter_line_with_id_witness :
  Format (DefaultFormatter ">>>") entry_with_id
    [(RequestIdKey, VString "abc123")] [(RequestIdKey, VString "abc123")]
  = Ret (Rendered (Sprintln "[2024-01-02T03:04:05Z] [ INFO] [abc123] hello") None).
Proof.
  apply (DefaultFormatter_line_with_id ">>>" entry_with_id _ _ "abc123").
  - apply lookup_singleton_eq.
  - apply delete_singleton_eq.
  - apply range_order_singleton.
  - apply range_order_singleton.
  - reflexivity.
  - reflexivity.
Defined.

(** X7. The line of the default formatter for a record with no field at all,
    when the rendered time has no [<]: the segment [ [<id>]] is removed. An
    empty message leaves the token [<msg>] in the line. *)
Theorem DefaultFormatter_line_without_fields prefix e o1 o2 :
  Data e = ∅ ->
  range_order (Data e) o1 -> range_order (Data e) o2 ->
  mem_char "<" (Time_Format (Time_ e) RFC3339) = false ->
  Format (DefaultFormatter prefix) e o1 o2
  = Ret (Rendered
           (Sprintln ("[" +:+ Time_Format (Time_ e) RFC3339 +:+ "] ["
                      +:+ level_column (Level_ e) +:+ "] "
                      +:+ (if String.eqb (Message e) EmptyString
                           then logMsgKey else Message e)))
           None).
Proof.
  intros Hdata Ho1 Ho2 HT.
  assert (delete RequestIdKey (Data e) = ∅) as Hrest
    by (rewrite Hdata; apply delete_empty).
  assert (getMessage (DefaultFormatter prefix) e o1
          = Ret ("[" +:+ Time_Format (Time_ e) RFC3339 +:+ "] ["
                 +:+ level_column (Level_ e) +:+ "] "
                 +:+ (if String.eqb (Message e) EmptyString
                      then logMsgKey else Message e))) as Hmsg.
  { unfold getMessage. rewrite Hdata, lookup_empty. exec_unfold.
    cbn [isDefault DefaultFormatter].
    rewrite foldl_getMessage_step_other, (other_fields_empty (Data e) o1) by done.
    cbn [foldl]. f_equal.
    apply (default_template_without_id _ (level_column (Level_ e)));
      auto using level_column_plain. }
  unfold Format. cbn [MsgFormat jsonOutput DefaultFormatter].
  rewrite (textFormat_returns _ e o1 o2 _ Hmsg).
  rewrite foldl_textFormat_step_other, (other_fields_empty (Data e) o2) by done.
  reflexivity.
Qed.

Lemma DefaultFormatter_line_without_fields_witness :
  Format (DefaultFormatter ">>>") entry_no_message [] []
  = Ret (Rendered (Sprintln "[2024-01-02T03:04:05Z] [ INFO] <msg>") None).
Proof.
  apply (DefaultFormatter_line_without_fields ">>>" entry_no_message).
  - reflexivity.
  - unfold range_order. cbn [Data entry_no_message]. by rewrite map_to_list_empty.
  - unfold range_order. cbn [Data entry_no_message]. by rewrite map_to_list_empty.
  - reflexivity.
Defined.

(** X8. The level column is five bytes wide for the levels panic, fatal,
    error, info, debug and trace, and seven for warning and for a level out
    of range (unknown): [%5s] pads and never cuts. *)
Theorem level_column_width (l : Level) :
  String.length (level_column l)
  = if ((l =? 3) || (6 <? l))%N then 7 else 5.
Proof.
  destruct l as [|[[[p|p|]|[p|p|]|]|[[p|p|]|[p|p|]|]|]]; reflexivity.
Qed.

(** ** The JSON encoding *)

Section JsonFacts.

Lemma insert_by_key_Permutation {A : Type} (kv : string * A) l :
  insert_by_key kv l ≡ₚ kv :: l.
Proof.
  induction l as [|kv' l IH]; [done|]. cbn [insert_by_key].
  destruct (String.leb (fst kv) (fst kv')); [done|].
  rewrite IH. apply perm_swap.
Qed.

Lemma sort_by_key_Permutation {A : Type} (l : list (string * A)) :
  sort_by_key l ≡ₚ l.
Proof.
  unfold sort_by_key. induction l as [|kv l IH]; [done|].
  cbn [foldr]. by rewrite insert_by_key_Permutation, IH.
Qed.

(** The members of an object cannot be written exactly when the encoding of
    one of the values has failed. *)
Lemma json_members_None (l : list (string * option string)) :
  json_members l = None <-> exists k, (k, None) ∈ l.
Proof.
  induction l as [|[k o] l IH].
  - split; [done|]. intros [k Hk]. by apply not_elem_of_nil in Hk.
  - cbn [json_members]. destruct o as [x|].
    + destruct (json_members l) as [xs|].
      * split; [done|]. intros [k' Hk']. apply elem_of_cons in Hk' as [Hk'|Hk']; [done|].
        destruct IH as [_ IH]. discriminate IH. by exists k'.
      * split; [|done]. intros _. destruct IH as [IH _].
        destruct (IH eq_refl) as [k' Hk']. exists k'. by right.
    + split; [|done]. intros _. exists k. by left.
Qed.

Lemma json_encode_VMap_fails (m : gmap string value) :
  json_encode (VMap m) = None
  <-> exists k v, m !! k = Some v /\ json_encode v = None.
Proof.
  change (json_encode (VMap m))
    with (json_object (sort_by_key (map_to_list (json_encode <$> m)))).
  unfold json_object.
  destruct (json_members _) as [xs|] eqn:Hmem.
  - split; [done|]. intros (k & v & Hk & Hv).
    assert (json_members (sort_by_key (map_to_list (json_encode <$> m))) = None) as Hn.
    { apply json_members_None. exists k. rewrite sort_by_key_Permutation.
      apply elem_of_map_to_list. by rewrite lookup_fmap, Hk, <- Hv. }
    congruence.
  - split; [|done]. intros _. apply json_members_None in Hmem as [k Hk].
    rewrite sort_by_key_Permutation in Hk. apply elem_of_map_to_list in Hk.
    rewrite lookup_fmap in Hk. destruct (m !! k) as [v|] eqn:Hv; [|done].
    exists k, v. split; [done|]. by inversion Hk.
Qed.

(** An object is written between braces. *)
Lemma json_encode_VMap_braces (m : gmap string value) js :
  json_encode (VMap m) = Some js -> exists rest, js = "{" +:+ rest.
Proof.
  change (json_encode (VMap m))
    with (json_object (sort_by_key (map_to_list (json_encode <$> m)))).
  unfold json_object. destruct (json_members _); [|done].
  intros [= <-]. by eexists.
Qed.

Lemma join_cons_prefix sep x l : exists y, join sep (x :: l) = x +:+ y.
Proof.
  destruct l as [|x' l]; cbn [join]; [|by eexists].
  exists EmptyString. by rewrite append_empty_r.
Qed.

Lemma join_cons_cons sep x x' l :
  join sep (x :: x' :: l) = x +:+ sep +:+ join sep (x' :: l).
Proof. reflexivity. Qed.

Lemma join_app_prefix sep l1 l2 :
  l1 <> [] -> exists y, join sep (l1 ++ l2) = join sep l1 +:+ y.
Proof.
  induction l1 as [|x l1 IH]; [done|]. intros _.
  destruct l1 as [|x' l1].
  - cbn [app]. apply join_cons_prefix.
  - destruct IH as [y Hy]; [done|]. cbn [app] in Hy |- *.
    exists y. by rewrite !join_cons_cons, Hy, !append_assoc.
Qed.

Lemma bytes_of_app s t : bytes_of (s +:+ t) = (bytes_of s ++ bytes_of t)%list.
Proof. induction s as [|c s IH]; [done|]. rewrite append_cons. cbn. by f_equal. Qed.

(** The [%v] form of bytes that begin with [known] begins with the decimal
    form of [known]. *)
Lemma fmt_v_bytes_prefix known rest :
  known <> EmptyString ->
  HasPrefix (fmt_v_bytes (known +:+ rest))
    ("[" +:+ join " " (pretty <$> bytes_of known)) = true.
Proof.
  intros Hk. unfold fmt_v_bytes. rewrite bytes_of_app, fmap_app.
  destruct (join_app_prefix " " (pretty <$> bytes_of known) (pretty <$> bytes_of rest))
    as [y ->].
  { destruct known; [done|]. discriminate. }
  rewrite !append_cons, append_empty_l. apply HasPrefix_cons. split; [done|].
  rewrite append_assoc. apply HasPrefix_app_self.
Qed.

(** The [%v] form of bytes that begin with an opening brace. *)
Lemma fmt_v_bytes_brace r : exists rest, fmt_v_bytes ("{" +:+ r) = "[123" +:+ rest.
Proof.
  unfold fmt_v_bytes. rewrite bytes_of_app, fmap_app.
  destruct (join_app_prefix " " (pretty <$> bytes_of "{") (pretty <$> bytes_of r))
    as [y ->]; [discriminate|].
  exists (y +:+ "]"). rewrite append_assoc. reflexivity.
Qed.

End JsonFacts.

(** X9. In JSON mode [jsonFormat] returns an error exactly when the encoding
    of some field value fails; the bytes it returns with the error are the
    [%v] form of the nil slice and a newline. *)
Theorem jsonFormat_error_iff_field_not_encodable f e o bytes err :
  jsonFormat f e o = Ret (bytes, err) ->
  (err = Some MarshalError
   <-> exists k v, Data e !! k = Some v /\ json_encode v = None)
  /\ (err <> None -> bytes = Sprintln "[]").
Proof.
  unfold jsonFormat. destruct (jsonFormat_format f e o) as [x|] eqn:Hx; [|done].
  assert (Data_json x = Data e) as Hdata.
  { unfold jsonFormat_format in Hx. destruct (getMessage f e o); [|done].
    exec_unfold. destruct (Data e !! RequestIdKey) as [[]|];
      cbn [assert_string] in Hx; by inversion Hx. }
  exec_unfold. unfold json_Marshal_format. rewrite Hdata.
  destruct (decide (size (Data e) = 0)) as [Hsize|Hsize].
  - intros [= <- <-]. split; [|done]. split; [done|].
    intros (k & v & Hk & _). apply map_size_empty_inv in Hsize.
    by rewrite Hsize, lookup_empty in Hk.
  - destruct (json_encode (VMap (Data e))) as [d|] eqn:Hd.
    + intros [= <- <-]. split; [|done]. split; [done|].
      intros Hex. apply json_encode_VMap_fails in Hex. congruence.
    + intros [= <- <-]. split; [|done]. split; [|done].
      intros _. by apply json_encode_VMap_fails.
Qed.

Lemma jsonFormat_error_iff_field_not_encodable_witness :
  (Some MarshalError = Some MarshalError
   <-> exists k v, Data entry_with_channel !! k = Some v /\ json_encode v = None)
  /\ (Some MarshalError <> None -> Sprintln "[]" = Sprintln "[]").
Proof.
  apply (jsonFormat_error_iff_field_not_encodable
           cfg_json entry_with_channel [("conn", VMap map_with_channel)]).
  vm_compute. reflexivity.
Defined.

(** The encoding of the object of [jsonFormat] begins with the opening
    brace, the member name timestamp between quotes, the colon and a quote. *)
Lemma json_Marshal_format_begins x js :
  json_Marshal_format x = (js, None) ->
  exists rest,
    js = ((("{" +:+ json_string "timestamp") +:+ ":") +:+ dquote) +:+ rest.
Proof.
  unfold json_Marshal_format.
  destruct (if decide (size (Data_json x) = 0) then _ else _) as [data|]; [|done].
  intros H. apply (f_equal fst) in H. cbn [fst] in H. subst js.
  cbn [app]. rewrite join_cons_cons. unfold json_string at 2.
  eexists. rewrite !append_assoc. reflexivity.
Qed.

(** X10. In JSON mode, whenever [jsonFormat] returns a nil error, the bytes
    are the [%v] form of the encoded object, not the object: they begin with
    an opening square bracket and the decimal values of the bytes of the
    opening brace, the member name timestamp between quotes, the colon and
    a quote. *)
Theorem jsonFormat_bytes_begin_with_decimals f e o bytes :
  jsonFormat f e o = Ret (bytes, None) ->
  HasPrefix bytes "[123 34 116 105 109 101 115 116 97 109 112 34 58 34" = true.
Proof.
  unfold jsonFormat. destruct (jsonFormat_format f e o) as [x|]; [|done].
  exec_unfold. destruct (json_Marshal_format x) as [js err] eqn:Hjs.
  intros H. inversion H; subst.
  destruct (json_Marshal_format_begins x js Hjs) as [rest ->].
  unfold Sprintln. apply HasPrefix_app_l.
  apply (fmt_v_bytes_prefix ((("{" +:+ json_string "timestamp") +:+ ":") +:+ dquote) rest).
  discriminate.
Qed.

Lemma jsonFormat_bytes_begin_with_decimals_witness :
  HasPrefix
    (Sprintln
       "[123 34 116 105 109 101 115 116 97 109 112 34 58 34 50 48 50 52 45 48 49 45 48 50 84 48 51 58 48 52 58 48 53 90 34 44 34 108 101 118 101 108 34 58 34 73 78 70 79 34 44 34 109 101 115 115 97 103 101 34 58 34 104 101 108 108 111 34 44 34 100 97 116 97 34 58 123 34 114 101 103 105 111 110 34 58 34 117 115 45 101 97 115 116 34 125 125]")
    "[123 34 116 105 109 101 115 116 97 109 112 34 58 34" = true.
Proof.
  apply (jsonFormat_bytes_begin_with_decimals
           cfg_json entry_region [("region", VString "us-east")]).
  vm_compute. reflexivity.
Defined.

(** X11. In the loop of the text renderer, a field that is not skipped and
    whose value is a map that [json.Marshal] encodes is appended with the
    [%v] form of the bytes of the encoding: the value printed begins with a
    square bracket and 123, the decimal value of the opening brace. *)
Theorem textFormat_step_prints_map_bytes f output k (m : gmap string value) :
  k <> RequestIdKey ->
  Contains output (FormatIdentifier k) = false ->
  json_encode (VMap m) <> None ->
  exists rest,
    textFormat_step f output (k, VMap m)
    = Sprintf_pair output (textDataSeparator f) k ("[123" +:+ rest).
Proof.
  intros Hk Htok Henc. unfold textFormat_step.
  destruct (String.eqb_spec k RequestIdKey) as [|_]; [done|]. rewrite Htok.
  unfold json_Marshal. destruct (json_encode (VMap m)) as [js|] eqn:Hjs; [|done].
  destruct (json_encode_VMap_braces m js Hjs) as [r ->].
  destruct (fmt_v_bytes_brace r) as [rest ->]. by exists rest.
Qed.

Lemma textFormat_step_prints_map_bytes_witness :
  exists rest,
    textFormat_step cfg_text "hello" ("user", VMap {[ "a" := VInt 1 ]})
    = Sprintf_pair "hello" (textDataSeparator cfg_text) "user" ("[123" +:+ rest).
Proof.
  apply textFormat_step_prints_map_bytes.
  - discriminate.
  - reflexivity.
  - vm_compute. discriminate.
Defined.

(** X12. The two renderers use the same message: when [getMessage] returns,
    the object of the JSON renderer holds that message, the upper-cased level
    name and the whole field map, request id included, and the bytes of the
    text renderer begin with that message. *)
Theorem renderers_share_message f e o1 o2 msg :
  getMessage f e o1 = Ret msg ->
  (exists x,
     jsonFormat_format (SetJsonOutput f) e o1 = Ret x
     /\ Message_json x = msg
     /\ Level_json x = ToUpper (Level_String (Level_ e))
     /\ Data_json x = Data e)
  /\ exists rest, textFormat f e o1 o2 = Ret (msg +:+ rest, None).
Proof.
  intros Hmsg. split.
  - unfold jsonFormat_format.
    change (getMessage (SetJsonOutput f) e o1) with (getMessage f e o1).
    rewrite Hmsg. exec_unfold.
    destruct (Data e !! RequestIdKey) as [v|] eqn:Hv; [|by eexists].
    destruct v; try (by eexists).
    all: unfold getMessage in Hmsg; rewrite Hv in Hmsg; done.
  - rewrite (textFormat_returns f e o1 o2 msg Hmsg). unfold Sprintln.
    assert (exists rest, foldl (textFormat_step f) msg o2 = msg +:+ rest) as [rest ->].
    { clear Hmsg. revert msg. induction o2 as [|kv o2 IH]; intros msg.
      - exists EmptyString. by rewrite append_empty_r.
      - cbn [foldl]. destruct (textFormat_step_extends f msg kv) as [suffix ->].
        destruct (IH (msg +:+ suffix)) as [rest ->].
        exists (suffix +:+ rest). by rewrite append_assoc. }
    eexists. by rewrite append_assoc.
Qed.

Lemma renderers_share_message_witness :
  (exists x,
     jsonFormat_format (SetJsonOutput cfg_region) entry_region
       [("region", VString "us-east")] = Ret x
     /\ Message_json x = "us-east hello"
     /\ Level_json x = ToUpper (Level_String (Level_ entry_region))
     /\ Data_json x = Data entry_region)
  /\ exists rest,
       textFormat cfg_region entry_region
         [("region", VString "us-east")] [("region", VString "us-east")]
       = Ret ("us-east hello" +:+ rest, None).
Proof.
  apply renderers_share_message. vm_compute. reflexivity.
Defined.

(** X13. Only the first [<msg>] of a template is replaced: for a record
    with no field and a non-empty message, and a template with no [<time>]
    and no [<level>] that reads [p], then [<msg>], then [q], with no [<] in
    [p], the message is [p], the record's message, and [q] as it stands,
    further [<msg>] tokens included. *)
Theorem getMessage_replaces_first_msg_only f e o p q :
  Data e = ∅ ->
  Message e <> EmptyString ->
  isDefault f = false ->
  MsgFormat f = p +:+ logMsgKey +:+ q ->
  mem_char "<" p = false ->
  Contains (MsgFormat f) logTimeKey = false ->
  Contains (MsgFormat f) logLevelKey = false ->
  range_order (Data e) o ->
  getMessage f e o = Ret (p +:+ Message e +:+ q).
Proof.
  intros Hdata Hm Hdef Htpl Hp Ht Hl Ho.
  assert (delete RequestIdKey (Data e) = ∅) as Hrest
    by (rewrite Hdata; apply delete_empty).
  unfold getMessage. rewrite Hdata, lookup_empty, Hdef. exec_unfold.
  rewrite foldl_getMessage_step_other, (other_fields_empty (Data e) o) by done.
  cbn [foldl].
  rewrite (ReplaceFirst_absent _ logTimeKey) by done.
  rewrite (ReplaceFirst_absent _ logLevelKey) by done.
  destruct (String.eqb_spec (Message e) EmptyString) as [|_]; [done|].
  rewrite Htpl. unfold logMsgKey. by rewrite (ReplaceFirst_after "<").
Qed.

Lemma getMessage_replaces_first_msg_only_witness :
  getMessage (SetLogFormat NewFormatter "msg=<msg> (<msg>)") entry_no_fields []
  = Ret ("msg=" +:+ "hello" +:+ " (<msg>)").
Proof.
  apply (getMessage_replaces_first_msg_only
           (SetLogFormat NewFormatter "msg=<msg> (<msg>)") entry_no_fields []
           "msg=" " (<msg>)").
  - reflexivity.
  - discriminate.
  - reflexivity.
  - reflexivity.
  - reflexivity.
  - reflexivity.
  - reflexivity.
  - unfold range_order. cbn [Data entry_no_fields]. by rewrite map_to_list_empty.
Defined.

(** X14. In text mode a record with exactly one field besides the request
    id, whose token is not in the rendered message and whose value is not a
    map, gives the message, the separator, a space, [key = value] and a
    newline, whatever the order of the visits, with nil error. *)
Theorem textFormat_appends_single_field f e o1 o2 msg k v :
  getMessage f e o1 = Ret msg ->
  delete RequestIdKey (Data e) = {[ k := v ]} ->
  range_order (Data e) o2 ->
  Contains msg (FormatIdentifier k) = false ->
  (forall m, v <> VMap m) -> v <> VNilMap ->
  textFormat f e o1 o2
  = Ret (Sprintln (msg +:+ textDataSeparator f +:+ " " +:+ k +:+ " = " +:+ fmt_v v),
         None).
Proof.
  intros Hmsg Hone Ho2 Htok Hmap Hnil.
  rewrite (textFormat_returns f e o1 o2 msg Hmsg), foldl_textFormat_step_other.
  assert (other_fields o2 = [(k, v)]) as ->.
  { apply Permutation_singleton_r.
    rewrite (other_fields_delete (Data e) o2 Ho2), Hone.
    by rewrite map_to_list_singleton. }
  cbn [foldl]. do 3 f_equal. unfold textFormat_step.
  assert (k <> RequestIdKey) as Hk.
  { intros ->. assert (delete RequestIdKey (Data e) !! RequestIdKey = Some v) as Hl
      by (rewrite Hone; apply lookup_singleton_eq).
    by rewrite lookup_delete_eq in Hl. }
  destruct (String.eqb_spec k RequestIdKey) as [|_]; [done|]. rewrite Htok.
  destruct v; try reflexivity; [by destruct (Hmap m)|done].
Qed.

Lemma textFormat_appends_single_field_witness :
  textFormat cfg_text entry_id_and_region order_id_region order_region_id
  = Ret (Sprintln ("hello" +:+ " |" +:+ " " +:+ "region" +:+ " = " +:+ "us-east"), None).
Proof.
  apply (textFormat_appends_single_field
           cfg_text entry_id_and_region order_id_region order_region_id
           "hello" "region" (VString "us-east")).
  - vm_compute. reflexivity.
  - vm_compute. reflexivity.
  - unfold range_order, order_region_id.
    replace (map_to_list (Data entry_id_and_region))
      with [("region", VString "us-east"); (RequestIdKey, VString "abc123")]
      by (vm_compute; reflexivity).
    reflexivity.
  - reflexivity.
  - discriminate.
  - discriminate.
Defined.



(** ** The timestamp of the JSON renderer *)

Section JsonTimestamp.

Implicit Types (f : customFormatter) (e : Entry) (o : list (string * value)).

Lemma jsonFormat_format_fields f e o x :
  jsonFormat_format f e o = Ret x ->
  Timestamp x = Time_Format (Time_ e) RFC3339 /\ Data_json x = Data e.
Proof.
  unfold jsonFormat_format. destruct (getMessage f e o) as [msg|]; [|done].
  exec_unfold. destruct (Data e !! RequestIdKey) as [[]|]; cbn [assert_string];
    intros H; by inversion H.
Qed.

Lemma jsonFormat_format_SetTimeFormat f e o layout x :
  jsonFormat_format f e o = Ret x ->
  exists x', jsonFormat_format (SetTimeFormat f layout) e o = Ret x'.
Proof.
  unfold jsonFormat_format, getMessage.
  destruct (Data e !! RequestIdKey) as [[]|]; exec_unfold; cbn [assert_string];
    try done; intros _; by eexists.
Qed.

Lemma json_Marshal_format_timestamp x js :
  json_Marshal_format x = (js, None) ->
  exists rest,
    js = "{" +:+ json_string "timestamp" +:+ ":"
         +:+ json_string (Timestamp x) +:+ "," +:+ rest.
Proof.
  unfold json_Marshal_format.
  destruct (if decide (size (Data_json x) = 0) then _ else _) as [data|]; [|done].
  intros H. apply (f_equal fst) in H. cbn [fst] in H. subst js.
  cbn [app]. rewrite join_cons_cons. eexists. rewrite !append_assoc. reflexivity.
Qed.

(** Whether the object can be encoded depends on the field map only. *)
Lemma json_Marshal_format_error x x' :
  Data_json x = Data_json x' ->
  snd (json_Marshal_format x) = snd (json_Marshal_format x').
Proof.
  intros H. unfold json_Marshal_format. rewrite H.
  destruct (decide (size (Data_json x') = 0)); [done|].
  by destruct (json_encode (VMap (Data_json x'))).
Qed.

Lemma json_Marshal_format_encodable x :
  (forall k v, Data_json x !! k = Some v -> json_encode v <> None) ->
  snd (json_Marshal_format x) = None.
Proof.
  intros Henc. unfold json_Marshal_format.
  destruct (decide (size (Data_json x) = 0)); [done|].
  destruct (json_encode (VMap (Data_json x))) eqn:Hd; [done|].
  apply json_encode_VMap_fails in Hd as (k & v & Hk & Hv). by destruct (Henc k v).
Qed.

Lemma jsonFormat_of_format f e o x :
  jsonFormat_format f e o = Ret x ->
  jsonFormat f e o
  = Ret (Sprintln (fmt_v_bytes (fst (json_Marshal_format x))),
         snd (json_Marshal_format x)).
Proof.
  intros Hx. unfold jsonFormat. rewrite Hx. exec_unfold.
  by destruct (json_Marshal_format x).
Qed.

(** The bytes that [jsonFormat] returns with a nil error print an object
    whose first member is the timestamp in the layout RFC3339, and so do the
    bytes returned under any other [TimeFormat], which are returned with a nil
    error as well. *)
Lemma jsonFormat_timestamp_bytes f e o layout bytes :
  jsonFormat f e o = Ret (bytes, None) ->
  exists rest rest',
    bytes = Sprintln (fmt_v_bytes
              ("{" +:+ json_string "timestamp" +:+ ":"
               +:+ json_string (Time_Format (Time_ e) RFC3339) +:+ "," +:+ rest))
    /\ jsonFormat (SetTimeFormat f layout) e o
       = Ret (Sprintln (fmt_v_bytes
                ("{" +:+ json_string "timestamp" +:+ ":"
                 +:+ json_string (Time_Format (Time_ e) RFC3339) +:+ "," +:+ rest')),
              None).
Proof.
  intros H. destruct (jsonFormat_format f e o) as [x|] eqn:Hx.
  2:{ unfold jsonFormat in H. by rewrite Hx in H. }
  rewrite (jsonFormat_of_format f e o x Hx) in H.
  destruct (jsonFormat_format_SetTimeFormat f e o layout x Hx) as [x' Hx'].
  destruct (jsonFormat_format_fields f e o x Hx) as [Hts Hdata].
  destruct (jsonFormat_format_fields _ e o x' Hx') as [Hts' Hdata'].
  rewrite (jsonFormat_of_format _ e o x' Hx').
  assert (snd (json_Marshal_format x') = snd (json_Marshal_format x)) as Herr
    by (apply json_Marshal_format_error; congruence).
  destruct (json_Marshal_format x) as [js err] eqn:Hjs.
  destruct (json_Marshal_format x') as [js' err'] eqn:Hjs'.
  cbn [fst snd] in H, Herr |- *. inversion H; subst.
  destruct (json_Marshal_format_timestamp x js Hjs) as [rest ->].
  destruct (json_Marshal_format_timestamp x' js' Hjs') as [rest' ->].
  exists rest, rest'. by rewrite Hts, Hts'.
Qed.

Lemma jsonFormat_nil_error f e o :
  (forall v, Data e !! RequestIdKey = Some v -> exists s, v = VString s) ->
  (forall k v, Data e !! k = Some v -> json_encode v <> None) ->
  exists bytes, jsonFormat f e o = Ret (bytes, None).
Proof.
  intros Hid Henc. destruct (jsonFormat_format_returns f e o Hid) as [x Hx].
  rewrite (jsonFormat_of_format f e o x Hx).
  destruct (jsonFormat_format_fields f e o x Hx) as [_ Hdata].
  rewrite json_Marshal_format_encodable; [by eexists|]. by rewrite Hdata.
Qed.

End JsonTimestamp.

(** C6. In JSON mode the timestamp of the output does not depend on
    [TimeFormat]. The object that [jsonFormat] encodes has the time rendered
    with the layout RFC3339 as its [timestamp], under every [TimeFormat].
    Whenever [jsonFormat], or [Format] with a non-empty template and the JSON
    flag set, returns bytes with a nil error, these bytes print an object
    whose first member is that timestamp, and under any other [TimeFormat] the
    same call returns, with a nil error, bytes that print an object with the
    same first member. Such bytes are returned whenever the request id is
    absent or a string and every field value can be encoded. *)
Theorem jsonFormat_timestamp_fixed_layout f e o layout :
  Timestamp <$> jsonFormat_format (SetTimeFormat f layout) e o
  = Timestamp <$> jsonFormat_format f e o
  /\ (forall x, jsonFormat_format f e o = Ret x ->
        Timestamp x = Time_Format (Time_ e) RFC3339
        /\ forall js, json_Marshal_format x = (js, None) ->
             exists rest,
               js = "{" +:+ json_string "timestamp" +:+ ":"
                    +:+ json_string (Time_Format (Time_ e) RFC3339) +:+ "," +:+ rest)
  /\ ((forall v, Data e !! RequestIdKey = Some v -> exists s, v = VString s) ->
      exists x, jsonFormat_format f e o = Ret x)
  /\ (forall bytes, jsonFormat f e o = Ret (bytes, None) ->
        exists rest rest',
          bytes = Sprintln (fmt_v_bytes
                    ("{" +:+ json_string "timestamp" +:+ ":"
                     +:+ json_string (Time_Format (Time_ e) RFC3339) +:+ "," +:+ rest))
          /\ jsonFormat (SetTimeFormat f layout) e o
             = Ret (Sprintln (fmt_v_bytes
                      ("{" +:+ json_string "timestamp" +:+ ":"
                       +:+ json_string (Time_Format (Time_ e) RFC3339) +:+ ","
                       +:+ rest')),
                    None))
  /\ (forall o2 bytes,
        MsgFormat f <> EmptyString -> jsonOutput f = true ->
        Format f e o o2 = Ret (Rendered bytes None) ->
        exists rest rest',
          bytes = Sprintln (fmt_v_bytes
                    ("{" +:+ json_string "timestamp" +:+ ":"
                     +:+ json_string (Time_Format (Time_ e) RFC3339) +:+ "," +:+ rest))
          /\ Format (SetTimeFormat f layout) e o o2
             = Ret (Rendered
                      (Sprintln (fmt_v_bytes
                         ("{" +:+ json_string "timestamp" +:+ ":"
                          +:+ json_string (Time_Format (Time_ e) RFC3339) +:+ ","
                          +:+ rest')))
                      None))
  /\ ((forall v, Data e !! RequestIdKey = Some v -> exists s, v = VString s) ->
      (forall k v, Data e !! k = Some v -> json_encode v <> None) ->
      (exists bytes, jsonFormat f e o = Ret (bytes, None))
      /\ forall o2, MsgFormat f <> EmptyString -> jsonOutput f = true ->
           exists bytes, Format f e o o2 = Ret (Rendered bytes None)).
Proof.
  split; [|split; [|split; [apply jsonFormat_format_returns|split; [|split]]]].
  - unfold jsonFormat_format, getMessage.
    destruct (Data e !! RequestIdKey) as [[]|]; reflexivity.
  - intros x Hx. destruct (jsonFormat_format_fields f e o x Hx) as [Hts _].
    split; [done|]. intros js Hjs. rewrite <- Hts.
    by apply json_Marshal_format_timestamp.
  - intros bytes. apply jsonFormat_timestamp_bytes.
  - intros o2 bytes Htpl Hjson. unfold Format.
    cbn [MsgFormat jsonOutput SetTimeFormat].
    rewrite (MsgFormat_not_empty f Htpl), Hjson.
    destruct (jsonFormat f e o) as [[b err]|] eqn:Hj; [|done].
    exec_unfold. unfold rendered. cbn [fst snd]. intros H. inversion H; subst.
    destruct (jsonFormat_timestamp_bytes f e o layout bytes Hj)
      as (rest & rest' & -> & ->).
    by exists rest, rest'.
  - intros Hid Henc. destruct (jsonFormat_nil_error f e o Hid Henc) as [bytes Hb].
    split; [by exists bytes|]. intros o2 Htpl Hjson. unfold Format.
    rewrite (MsgFormat_not_empty f Htpl), Hjson, Hb. by exists bytes.
Qed.
